(** * Prashnakosh question-bank parsers: a shallow embedding

    This development embeds the two document parsers of the repository,
    [parse_all_docs.py] (module [V1]) and [parse_all_docs_v2.py] (module
    [V2]), and proves properties of their normaliser, marks extractor, type
    classifier, line-based segmentation loops, structured extractor and
    deduplication fold.

    Conventions of the embedding.
    - A Python [str] is a [string]; a character is an 8-bit code point
      (the Latin-1 range of Python's [str]).
    - [Optional[int]] is [option N]; a record dictionary is the Rocq record
      [QuestionRecord]; a key that a dictionary does not carry is [None].
    - A document ([docx.Document(filepath).paragraphs]) is the list of its
      paragraph texts.
    - Python's [re] module is embedded as a backtracking matcher ([Re.run])
      over a syntax tree of the pattern; every pattern of the sources is
      written out as such a tree next to its concrete syntax.
    - The loops over lines are folds of a step function over an explicit
      state record that holds the variables of the loop.
    - Printing and the reading and writing of files are left out; [main]
      takes the documents that could be read. *)

From Stdlib Require Import Ascii String List NArith Bool Arith Lia Sorted.
From stdpp Require Import base decidable option list gmap strings.
Import ListNotations.

Local Open Scope string_scope.
Local Open Scope list_scope.

#[local] Set Warnings "-clear-no-such-hyp".

(* ===================================================================== *)
(** * Python string primitives *)
(* ===================================================================== *)

Module Py.

Definition code (c : ascii) : N := N_of_ascii c.

Definition between (lo hi : N) (c : ascii) : bool :=
  (lo <=? code c)%N && (code c <=? hi)%N.

(** [str.isspace] on one character, which is also the class [\s] of a
    [str] pattern. *)
Definition isspace (c : ascii) : bool :=
  between 9 13 c || between 28 32 c
  || (code c =? 133)%N || (code c =? 160)%N.

(** The class [\d]. *)
Definition isdigit (c : ascii) : bool := between 48 57 c.

Definition lower_char (c : ascii) : ascii :=
  if between 65 90 c || between 192 214 c || between 216 222 c
  then ascii_of_N (code c + 32) else c.

(** Upper case of one character. The upper cases of the code points 181,
    223 and 255 are not 8-bit characters; they are left in place (the
    sources take the upper case of the letters a-d and A-D only). *)
Definition upper_char (c : ascii) : ascii :=
  if between 97 122 c || between 224 246 c || between 248 254 c
  then ascii_of_N (code c - 32) else c.

Fixpoint map_chars (f : ascii -> ascii) (s : string) : string :=
  match s with
  | EmptyString => EmptyString
  | String c s' => String (f c) (map_chars f s')
  end.

(** [s.lower()] and [s.upper()]. *)
Definition lower (s : string) : string := map_chars lower_char s.
Definition upper (s : string) : string := map_chars upper_char s.

(** [s[:n]] and [s[n:]] for [0 <= n]. *)
Definition take (n : nat) (s : string) : string := substring 0 n s.

Fixpoint drop (n : nat) (s : string) : string :=
  match n, s with
  | O, _ => s
  | S _, EmptyString => EmptyString
  | S n', String _ s' => drop n' s'
  end.

Fixpoint lstrip (s : string) : string :=
  match s with
  | EmptyString => EmptyString
  | String c s' => if isspace c then lstrip s' else s
  end.

Fixpoint rstrip (s : string) : string :=
  match s with
  | EmptyString => EmptyString
  | String c s' =>
      match rstrip s' with
      | EmptyString => if isspace c then EmptyString else String c EmptyString
      | t => String c t
      end
  end.

(** [s.strip()]. *)
Definition strip (s : string) : string := rstrip (lstrip s).

(** [s.split()]: the maximal runs of characters that are not white
    space. [cur] is the run being read, in reverse. *)
Fixpoint split_ws_aux (cur : list ascii) (s : string) : list string :=
  match s with
  | EmptyString =>
      match cur with
      | [] => []
      | _ => [string_of_list_ascii (rev cur)]
      end
  | String c s' =>
      if isspace c then
        match cur with
        | [] => split_ws_aux [] s'
        | _ => string_of_list_ascii (rev cur) :: split_ws_aux [] s'
        end
      else split_ws_aux (c :: cur) s'
  end.

Definition split_ws (s : string) : list string := split_ws_aux [] s.

(** [s.split(sep)] for a separator of one character. *)
Fixpoint split_on_aux (sep : ascii) (cur : list ascii) (s : string)
  : list string :=
  match s with
  | EmptyString => [string_of_list_ascii (rev cur)]
  | String c s' =>
      if Ascii.eqb c sep
      then string_of_list_ascii (rev cur) :: split_on_aux sep [] s'
      else split_on_aux sep (c :: cur) s'
  end.

Definition split_on (sep : ascii) (s : string) : list string :=
  split_on_aux sep [] s.

(** [sep.join(l)]. *)
Fixpoint join (sep : string) (l : list string) : string :=
  match l with
  | [] => EmptyString
  | [x] => x
  | x :: l' => x +:+ sep +:+ join sep l'
  end.

(** [needle in hay]. *)
Fixpoint contains (needle hay : string) : bool :=
  String.prefix needle hay
  || match hay with
     | EmptyString => false
     | String _ hay' => contains needle hay'
     end.

(** [int(s)] on a string of decimal digits. *)
Fixpoint int_aux (acc : N) (s : string) : N :=
  match s with
  | EmptyString => acc
  | String c s' => int_aux (acc * 10 + (code c - 48))%N s'
  end.

Definition int (s : string) : N := int_aux 0 s.

(** Truth value of an [Optional[int]]: [None] and [0] are false. *)
Definition truthy (m : option N) : bool :=
  match m with
  | Some n => negb (n =? 0)%N
  | None => false
  end.

(** [m or d] for an [Optional[int]] [m] and an integer [d]. *)
Definition or_default (m : option N) (d : N) : N :=
  match m with
  | Some n => if (n =? 0)%N then d else n
  | None => d
  end.

Definition nl : ascii := ascii_of_nat 10.
Definition nl_str : string := String nl EmptyString.

End Py.

(* ===================================================================== *)
(** * Python's [re]: patterns and the backtracking matcher *)
(* ===================================================================== *)

Module Re.

(** One member of a bracketed character set. *)
Inductive item : Type :=
| IChr (c : ascii)            (* a literal character *)
| IRange (lo hi : ascii)      (* lo-hi *)
| IDigit                      (* \d *)
| ISpace.                     (* \s *)

Inductive regex : Type :=
| Eps
| Chr (c : ascii)             (* a literal character *)
| Any                         (* . *)
| Digit                       (* \d *)
| Space                       (* \s *)
| OneOf (items : list item)   (* [...] *)
| NoneOf (items : list item)  (* [^...] *)
| Bol                         (* ^ *)
| Eol                         (* $ *)
| Seq (r1 r2 : regex)
| Alt (r1 r2 : regex)         (* r1|r2 *)
| Star (greedy : bool) (r : regex)   (* r* and r*? *)
| Group (n : nat) (r : regex) (* the n-th capturing group *)
| Look (r : regex).           (* (?=r) *)

Record flags : Type := { ignorecase : bool; dotall : bool }.

Definition NOFLAGS : flags := {| ignorecase := false; dotall := false |}.
Definition IGNORECASE : flags := {| ignorecase := true; dotall := false |}.
Definition DOTALL_IGNORECASE : flags :=
  {| ignorecase := true; dotall := true |}.

(** Derived forms. *)
Definition Plus (greedy : bool) (r : regex) : regex :=
  Seq r (Star greedy r).
Definition Opt (r : regex) : regex := Alt r Eps.

Fixpoint Lit (s : string) : regex :=
  match s with
  | EmptyString => Eps
  | String c EmptyString => Chr c
  | String c s' => Seq (Chr c) (Lit s')
  end.

Fixpoint Alts (rs : list regex) : regex :=
  match rs with
  | [] => NoneOf [IRange zero (ascii_of_nat 255)]
  | [r] => r
  | r :: rs' => Alt r (Alts rs')
  end.

Fixpoint Seqs (rs : list regex) : regex :=
  match rs with
  | [] => Eps
  | [r] => r
  | r :: rs' => Seq r (Seqs rs')
  end.

(** Matching of one character. *)
Definition chr_match (f : flags) (c x : ascii) : bool :=
  if ignorecase f
  then Ascii.eqb (Py.lower_char c) (Py.lower_char x)
  else Ascii.eqb c x.

Definition in_range (lo hi x : ascii) : bool :=
  Py.between (Py.code lo) (Py.code hi) x.

Definition item_match (f : flags) (i : item) (x : ascii) : bool :=
  match i with
  | IChr c => chr_match f c x
  | IRange lo hi =>
      if ignorecase f
      then in_range lo hi x || in_range lo hi (Py.lower_char x)
           || in_range lo hi (Py.upper_char x)
      else in_range lo hi x
  | IDigit => Py.isdigit x
  | ISpace => Py.isspace x
  end.

Definition set_match (f : flags) (items : list item) (x : ascii) : bool :=
  existsb (fun i => item_match f i x) items.

(** The state of a match attempt: the position reached, the text that
    remains from there, and the text of the groups captured so far
    (latest first). *)
Record mstate : Type :=
  { pos : nat; rest : string; caps : list (nat * string) }.

Definition eat (p : ascii -> bool) (k : mstate -> option mstate)
  (st : mstate) : option mstate :=
  match rest st with
  | String x t =>
      if p x
      then k {| pos := S (pos st); rest := t; caps := caps st |}
      else None
  | EmptyString => None
  end.

(** [$] without [re.MULTILINE]: at the end of the text, or just before a
    newline that ends the text. *)
Definition at_end (s : string) : bool :=
  match s with
  | EmptyString => true
  | String c EmptyString => Ascii.eqb c Py.nl
  | _ => false
  end.

Definition close_group (n : nat) (st st' : mstate) : mstate :=
  {| pos := pos st';
     rest := rest st';
     caps := (n, Py.take (pos st' - pos st) (rest st)) :: caps st' |}.

(** The iterations of a star. [body k st] matches the starred pattern once
    at [st] and hands the end states to [k]; an iteration has to consume
    text; the greedy loop tries one more iteration before it leaves, the
    lazy loop leaves first. [n] bounds the number of iterations. *)
Definition star_loop
  (body : (mstate -> option mstate) -> mstate -> option mstate)
  (greedy : bool) (k : mstate -> option mstate)
  : nat -> mstate -> option mstate :=
  fix loop (n : nat) (st : mstate) {struct n} : option mstate :=
    match n with
    | O => k st
    | S n' =>
        let again st' :=
          if Nat.ltb (pos st) (pos st') then loop n' st' else None in
        if greedy then
          match body again st with
          | Some st' => Some st'
          | None => k st
          end
        else
          match k st with
          | Some st' => Some st'
          | None => body again st
          end
    end.

(** The matcher, in continuation-passing style: [run f r k st] matches
    [r] at [st] and hands each candidate end state, in the priority order
    of a backtracking engine, to [k]; the first one [k] accepts wins. Every
    iteration of a star consumes text, so [S (length (rest st))] rounds are
    always enough (lemma [star_loop_fuel] below). *)
Fixpoint run (f : flags) (r : regex) (k : mstate -> option mstate)
  (st : mstate) : option mstate :=
  match r with
  | Eps => k st
  | Chr c => eat (chr_match f c) k st
  | Any => eat (fun x => dotall f || negb (Ascii.eqb x Py.nl)) k st
  | Digit => eat Py.isdigit k st
  | Space => eat Py.isspace k st
  | OneOf items => eat (set_match f items) k st
  | NoneOf items => eat (fun x => negb (set_match f items x)) k st
  | Bol => if Nat.eqb (pos st) 0 then k st else None
  | Eol => if at_end (rest st) then k st else None
  | Seq r1 r2 => run f r1 (run f r2 k) st
  | Alt r1 r2 =>
      match run f r1 k st with
      | Some st' => Some st'
      | None => run f r2 k st
      end
  | Star greedy r' =>
      star_loop (run f r') greedy k (S (String.length (rest st))) st
  | Group n r' => run f r' (fun st' => k (close_group n st st')) st
  | Look r' =>
      match run f r' Some st with
      | Some _ => k st
      | None => None
      end
  end.

(** [st'] lies [n] characters further in the text than [st]. *)
Definition ahead (n : nat) (st st' : mstate) : Prop :=
  pos st' = pos st + n
  /\ rest st' = Py.drop n (rest st)
  /\ n <= String.length (rest st).

(** A matcher hands to its continuation states that lie ahead, and looks
    at its continuation nowhere else. *)
Definition hands_ahead
  (body : (mstate -> option mstate) -> mstate -> option mstate) : Prop :=
  forall k st res, body k st = Some res ->
              exists n st', ahead n st st' /\ k st' = Some res.

Definition looks_ahead
  (body : (mstate -> option mstate) -> mstate -> option mstate) : Prop :=
  forall k1 k2 st, (forall n st', ahead n st st' -> k1 st' = k2 st') ->
              body k1 st = body k2 st.

(** A match object: its span and its groups. *)
Record Match : Type :=
  { m_start : nat; m_end : nat; m_caps : list (nat * string) }.

Fixpoint lookup_cap (n : nat) (cs : list (nat * string)) : option string :=
  match cs with
  | [] => None
  | (m, s) :: cs' => if Nat.eqb n m then Some s else lookup_cap n cs'
  end.

(** [m.group(n)] for [1 <= n]; a group that took no part gives the empty
    string here (every group read by the sources takes part in every
    match of its pattern). *)
Definition group (n : nat) (m : Match) : string :=
  match lookup_cap n (m_caps m) with
  | Some s => s
  | None => EmptyString
  end.

Definition attempt (f : flags) (r : regex) (p : nat) (s : string)
  : option Match :=
  match run f r Some {| pos := p; rest := s; caps := [] |} with
  | Some st' => Some {| m_start := p; m_end := pos st'; m_caps := caps st' |}
  | None => None
  end.

(** [re.match(r, s, f)]. *)
Definition match_ (f : flags) (r : regex) (s : string) : option Match :=
  attempt f r 0 s.

(** The leftmost match that starts at [p] or later; [s] is the text from
    [p] on. *)
Fixpoint search_from (f : flags) (r : regex) (p : nat) (s : string)
  : option Match :=
  match attempt f r p s with
  | Some m => Some m
  | None =>
      match s with
      | EmptyString => None
      | String _ s' => search_from f r (S p) s'
      end
  end.

(** [re.search(r, s, f)]. *)
Definition search (f : flags) (r : regex) (s : string) : option Match :=
  search_from f r 0 s.

(** The successive matches, left to right and without overlap. The scan
    resumes where a match ended, one character further after an empty
    match (no pattern that the sources hand to [finditer], [findall] or
    [sub] matches the empty text); [fuel] bounds the number of matches
    (lemma [finditer_from_fuel] below). *)
Fixpoint finditer_from (fuel : nat) (f : flags) (r : regex) (p : nat)
  (s : string) : list Match :=
  match fuel with
  | O => []
  | S fuel' =>
      match search_from f r p s with
      | None => []
      | Some m =>
          let s' := Py.drop (m_end m - p) s in
          m :: (if Nat.ltb (m_start m) (m_end m)
                then finditer_from fuel' f r (m_end m) s'
                else match s' with
                     | EmptyString => []
                     | String _ t => finditer_from fuel' f r (S (m_end m)) t
                     end)
      end
  end.

(** [re.finditer(r, s, f)]. *)
Definition finditer (f : flags) (r : regex) (s : string) : list Match :=
  finditer_from (S (S (String.length s))) f r 0 s.

(** The text of [s] outside the matches [ms], with [repl] in place of
    each match; [cur] is the position up to which [s] has been copied. *)
Fixpoint splice (repl : string) (s : string) (cur : nat) (ms : list Match)
  : string :=
  match ms with
  | [] => Py.drop cur s
  | m :: ms' =>
      substring cur (m_start m - cur) s +:+ repl
      +:+ splice repl s (m_end m) ms'
  end.

(** [re.sub(r, repl, s, flags=f)] for a replacement without group
    references. *)
Definition sub (f : flags) (r : regex) (repl : string) (s : string)
  : string :=
  splice repl s 0 (finditer f r s).

End Re.

Import Re.

(** Characters that the patterns name. *)
Definition ch (s : string) : ascii :=
  match s with
  | String c _ => c
  | EmptyString => zero
  end.

Definition C (s : string) : regex := Chr (ch s).
Definition IC (s : string) : item := IChr (ch s).
Definition IR (lo hi : string) : item := IRange (ch lo) (ch hi).

(* ===================================================================== *)
(** * The data model *)
(* ===================================================================== *)

(** The closed set of question types. *)
Inductive QType : Type :=
| mcq | true_false | assertion_reason | fill_blank | matching
| long_answer | short_answer.

(** The string that the sources write for a type. *)
Definition type_name (t : QType) : string :=
  match t with
  | mcq => "mcq"
  | true_false => "true_false"
  | assertion_reason => "assertion_reason"
  | fill_blank => "fill_blank"
  | matching => "matching"
  | long_answer => "long_answer"
  | short_answer => "short_answer"
  end.

Definition is_mcq (t : QType) : bool :=
  match t with mcq => true | _ => false end.

(** The dictionary that the parsers append to [questions]. [options] and
    [correctAnswer] are [None] where the dictionary holds Python's [None];
    [source] is [None] where the dictionary has no such key. *)
Record QuestionRecord : Type :=
  { questionText : string;
    type : QType;
    marks : N;
    options : option (list string);
    correctAnswer : option string;
    chapter : string;
    source : option string }.

(** [l if l else None]. *)
Definition list_or_None {A : Type} (l : list A) : option (list A) :=
  match l with
  | [] => None
  | _ => Some l
  end.

(** Truth value of a string and of an optional string. *)
Definition nonempty (s : string) : bool :=
  match s with
  | EmptyString => false
  | _ => true
  end.

Definition truthy_str (o : option string) : bool :=
  match o with
  | Some s => nonempty s
  | None => false
  end.

(** A document: the texts of its paragraphs. *)
Definition Document : Type := list string.

(* ===================================================================== *)
(** * Patterns *)
(* ===================================================================== *)

(** [Page:\s*\d+/\d+] *)
Definition re_page_slash : regex :=
  Seqs [Lit "Page:"; Star true Space; Plus true Digit; C "/";
        Plus true Digit].

(** [Page\s+\d+\s+of\s+\d+] *)
Definition re_page_of : regex :=
  Seqs [Lit "Page"; Plus true Space; Plus true Digit; Plus true Space;
        Lit "of"; Plus true Space; Plus true Digit].

(** [(?:mark|marks|m)] and [(?:mark|marks)] *)
Definition re_mark_word_m : regex := Alts [Lit "mark"; Lit "marks"; Lit "m"].
Definition re_mark_word : regex := Alts [Lit "mark"; Lit "marks"].

(** [\[(\d+)\s*(?:mark|marks|m)\]] *)
Definition re_marks_bracket : regex :=
  Seqs [C "["; Group 1 (Plus true Digit); Star true Space; re_mark_word_m;
        C "]"].

(** [\((\d+)\s*(?:mark|marks|m)\)] *)
Definition re_marks_paren : regex :=
  Seqs [C "("; Group 1 (Plus true Digit); Star true Space; re_mark_word_m;
        C ")"].

(** [(\d+)\s*(?:mark|marks)\s*$] *)
Definition re_marks_trailing : regex :=
  Seqs [Group 1 (Plus true Digit); Star true Space; re_mark_word;
        Star true Space; Eol].

(** [\[(\d+)\]] *)
Definition re_marks_bare : regex :=
  Seqs [C "["; Group 1 (Plus true Digit); C "]"].

(** [Marks\s*(\d+)] *)
Definition re_marks_label : regex :=
  Seqs [Lit "Marks"; Star true Space; Group 1 (Plus true Digit)].

(** The four shapes that both marks extractors try, in order. *)
Definition marks_shapes : list regex :=
  [re_marks_bracket; re_marks_paren; re_marks_trailing; re_marks_bare].

(** [^[(\[]?([a-dA-D])[)\].\s]+(.+)] *)
Definition re_option_line : regex :=
  Seqs [Bol; Opt (OneOf [IC "("; IC "["]);
        Group 1 (OneOf [IR "a" "d"; IR "A" "D"]);
        Plus true (OneOf [IC ")"; IC "]"; IC "."; ISpace]);
        Group 2 (Plus true Any)].

(** [^OR\s*$] *)
Definition re_or_marker : regex := Seqs [Bol; Lit "OR"; Star true Space; Eol].

(** The optional prefix of a numbering marker: a non-capturing group of
    [Q\.?] and [\s*], followed by [?]. *)
Definition re_q_prefix : regex :=
  Opt (Seqs [C "Q"; Opt (C "."); Star true Space]).

(** [for pattern in patterns: match = re.search(pattern, text,
    re.IGNORECASE); if match: return int(match.group(1))], then
    [return None]. *)
Fixpoint first_marks (patterns : list regex) (text : string) : option N :=
  match patterns with
  | [] => None
  | p :: patterns' =>
      match Re.search IGNORECASE p text with
      | Some m => Some (Py.int (Re.group 1 m))
      | None => first_marks patterns' text
      end
  end.

(* ===================================================================== *)
(** * parse_all_docs_v2.py *)
(* ===================================================================== *)

Module V2.

(** [clean_text]. *)
Definition clean_text (text : string) : string :=
  let text := Re.sub NOFLAGS re_page_slash " " text in
  let text := Re.sub NOFLAGS re_page_of " " text in
  let text := Py.join " " (Py.split_ws text) in
  Py.strip text.

(** [extract_marks]: the four shared shapes, then the label form. *)
Definition patterns : list regex := marks_shapes ++ [re_marks_label].

Definition extract_marks (text : string) : option N :=
  first_marks patterns text.

(** [detect_question_type]. *)
Definition detect_question_type (text : string) (options : list string)
  : QType :=
  let text_lower := Py.lower text in
  if negb (Nat.eqb (length options) 0) && Nat.leb 2 (length options)
  then mcq
  else if Py.contains "true or false" text_lower
          || Py.contains "true/false" text_lower
  then true_false
  else if Py.contains "assertion" text_lower
          && Py.contains "reason" text_lower
  then assertion_reason
  else if Py.contains "fill in" text_lower
          || Py.contains "fill up" text_lower
  then fill_blank
  else if Py.contains "match" text_lower
          && Py.contains "column" text_lower
  then matching
  else
    match extract_marks text with
    | Some marks =>
        if negb (marks =? 0)%N then
          if (4 <=? marks)%N then long_answer
          else if (2 <=? marks)%N then short_answer
          else short_answer
        else short_answer
    | None => short_answer
    end.

(** ** [parse_document_universal] *)

(** [q_patterns]:
    [^Q\.?\s*No\.?\s*(\d+)], [^Q\.?\s*(\d+)[.\):\s]], [^(\d+)[.\)]\s+],
    [^(\d+)\s+(?=[A-Z])]. *)
Definition q_patterns : list regex :=
  [ Seqs [Bol; C "Q"; Opt (C "."); Star true Space; Lit "No"; Opt (C ".");
          Star true Space; Group 1 (Plus true Digit)];
    Seqs [Bol; C "Q"; Opt (C "."); Star true Space;
          Group 1 (Plus true Digit);
          OneOf [IC "."; IC ")"; IC ":"; ISpace]];
    Seqs [Bol; Group 1 (Plus true Digit); OneOf [IC "."; IC ")"];
          Plus true Space];
    Seqs [Bol; Group 1 (Plus true Digit); Plus true Space;
          Look (OneOf [IR "A" "Z"])] ].

(** [option_pattern]. *)
Definition option_pattern : regex := re_option_line.

(** [^(Section|SECTION|General Instructions|Time Allowed|Maximum Marks|
    CLASS|COMPUTER SCIENCE|MARKING SCHEME|Q\s*No\s+Section)] *)
Definition re_header : regex :=
  Seq Bol
    (Group 1
       (Alts [Lit "Section"; Lit "SECTION"; Lit "General Instructions";
              Lit "Time Allowed"; Lit "Maximum Marks"; Lit "CLASS";
              Lit "COMPUTER SCIENCE"; Lit "MARKING SCHEME";
              Seqs [C "Q"; Star true Space; Lit "No"; Plus true Space;
                    Lit "Section"]])).

(** [\s*(Marks?|marks?)\s*\d*\s*$] *)
Definition re_trailing_marks_word : regex :=
  Seqs [Star true Space;
        Group 1 (Alt (Seq (Lit "Mark") (Opt (C "s")))
                     (Seq (Lit "mark") (Opt (C "s"))));
        Star true Space; Star true Digit; Star true Space; Eol].

(** [\[?\d+\]?\s*$] *)
Definition re_trailing_number : regex :=
  Seqs [Opt (C "["); Plus true Digit; Opt (C "]"); Star true Space; Eol].

(** The variables of [parse_document_universal] that its loop and
    [save_current_question] share. ([current_question] is assigned once
    and never read.) *)
Record ustate : Type :=
  { questions : list QuestionRecord;
    current_q_num : option string;
    current_options : list string;
    current_marks : option N;
    question_buffer : list string }.

Definition init : ustate :=
  {| questions := []; current_q_num := None; current_options := [];
     current_marks := None; question_buffer := [] |}.

(** The text that [save_current_question] measures: the joined buffer
    without a trailing marks word and a trailing number. *)
Definition body_text (buffer : list string) : string :=
  let q_text := Py.join " " buffer in
  let q_text :=
    Py.strip (Re.sub NOFLAGS re_trailing_marks_word "" q_text) in
  Py.strip (Re.sub NOFLAGS re_trailing_number "" q_text).

Section Universal.

Variable source_name : string.
Variable chapter_default : string.

(** The record that [save_current_question] builds. *)
Definition make_record (q_text : string) (opts : list string)
  (cur_marks : option N) : QuestionRecord :=
  let q_type := detect_question_type q_text opts in
  {| questionText := q_text;
     type := q_type;
     marks := Py.or_default cur_marks (if is_mcq q_type then 1 else 2);
     options := list_or_None opts;
     correctAnswer := None;
     chapter := chapter_default;
     source := Some source_name |}.

(** What [save_current_question] appends to [questions]. *)
Definition emitted (st : ustate) : list QuestionRecord :=
  match question_buffer st with
  | [] => []
  | _ =>
      let q_text := body_text (question_buffer st) in
      if Nat.ltb 15 (String.length q_text)
      then [make_record q_text (current_options st) (current_marks st)]
      else []
  end.

(** [save_current_question]. *)
Definition save_current_question (st : ustate) : ustate :=
  {| questions := questions st ++ emitted st;
     current_q_num := current_q_num st;
     current_options := [];
     current_marks := None;
     question_buffer := [] |}.

(** The first of [q_patterns] that matches the line, with its match. *)
Fixpoint first_boundary (ps : list regex) (line : string)
  : option (regex * Match) :=
  match ps with
  | [] => None
  | p :: ps' =>
      match Re.match_ IGNORECASE p line with
      | Some m => Some (p, m)
      | None => first_boundary ps' line
      end
  end.

Definition is_header (line : string) : bool :=
  match Re.match_ IGNORECASE re_header line with
  | Some _ => true
  | None => false
  end.

(** The body of [for line in lines]. *)
Definition step (st : ustate) (line : string) : ustate :=
  if is_header line then st
  else
    match first_boundary q_patterns line with
    | Some (pattern, m) =>
        let st := save_current_question st in
        let rest := Py.strip (Re.sub IGNORECASE pattern "" line) in
        {| questions := questions st;
           current_q_num := Some (Re.group 1 m);
           current_options := current_options st;
           current_marks := extract_marks line;
           question_buffer :=
             if nonempty rest then question_buffer st ++ [rest]
             else question_buffer st |}
    | None =>
        match Re.match_ NOFLAGS option_pattern line,
              question_buffer st with
        | Some opt_match, _ :: _ =>
            let option_text :=
              Py.upper (Re.group 1 opt_match) +:+ ") "
              +:+ Re.group 2 opt_match in
            {| questions := questions st;
               current_q_num := current_q_num st;
               current_options := current_options st ++ [option_text];
               current_marks := current_marks st;
               question_buffer := question_buffer st |}
        | _, _ =>
            match Re.match_ IGNORECASE re_or_marker line with
            | Some _ => st
            | None =>
                if negb (Nat.eqb (length (question_buffer st)) 0)
                   || truthy_str (current_q_num st)
                then
                  {| questions := questions st;
                     current_q_num := current_q_num st;
                     current_options := current_options st;
                     current_marks := current_marks st;
                     question_buffer := question_buffer st ++ [line] |}
                else st
            end
        end
    end.

(** The loop over the lines, then the last [save_current_question]. *)
Definition run_lines (lines : list string) : list QuestionRecord :=
  questions (save_current_question (fold_left step lines init)).

End Universal.

(** The lines that [parse_document_universal] loops over. *)
Definition universal_lines (doc : Document) : list string :=
  let full_text :=
    fold_left (fun acc para => acc +:+ para +:+ Py.nl_str) doc "" in
  let full_text := Re.sub NOFLAGS re_page_slash Py.nl_str full_text in
  let full_text := Re.sub NOFLAGS re_page_of Py.nl_str full_text in
  let lines := map clean_text (Py.split_on Py.nl full_text) in
  filter (fun l => nonempty l) lines.

(** [parse_document_universal]. *)
Definition parse_document_universal (doc : Document) (source_name : string)
  (chapter_default : string) : list QuestionRecord :=
  run_lines source_name chapter_default (universal_lines doc).

(** ** [parse_chapter_bank] *)

(** A numbering marker: the optional prefix, then [\d+[.\)]]. *)
Definition re_numbering : regex :=
  Seqs [re_q_prefix; Plus true Digit; OneOf [IC "."; IC ")"]].

(** [q_pattern]: the prefix, then [(\d+)[.\)]\s*(.+?)] and a lookahead
    for a numbering marker or [$]. *)
Definition q_pattern : regex :=
  Seqs [re_q_prefix; Group 1 (Plus true Digit); OneOf [IC "."; IC ")"];
        Star true Space; Group 2 (Plus false Any);
        Look (Alt re_numbering Eol)].

(** [(?:Ans(?:wer)?|Correct\s*Answer)[:\s]+(.+?)] and a lookahead for
    [\s*] with a numbering marker, or [$]. *)
Definition re_answer : regex :=
  Seqs [Alt (Seq (Lit "Ans") (Opt (Lit "wer")))
            (Seqs [Lit "Correct"; Star true Space; Lit "Answer"]);
        Plus true (OneOf [IC ":"; ISpace]);
        Group 1 (Plus false Any);
        Look (Alt (Seq (Star true Space) re_numbering) Eol)].

(** [[(\[]?[a-dA-D][)\].\s]] *)
Definition re_first_opt : regex :=
  Seqs [Opt (OneOf [IC "("; IC "["]);
        OneOf [IR "a" "d"; IR "A" "D"];
        OneOf [IC ")"; IC "]"; IC "."; ISpace]].

(** [[(\[]?([a-dA-D])[)\].\s]+([^(\[a-dA-D]+?)(?=[(\[]?[a-dA-D][)\].\s]|$)] *)
Definition re_inline_option : regex :=
  Seqs [Opt (OneOf [IC "("; IC "["]);
        Group 1 (OneOf [IR "a" "d"; IR "A" "D"]);
        Plus true (OneOf [IC ")"; IC "]"; IC "."; ISpace]);
        Group 2 (Plus false (NoneOf [IC "("; IC "["; IR "a" "d";
                                     IR "A" "D"]));
        Look (Alt re_first_opt Eol)].

(** [\s*\[?\d+\s*(?:mark|marks|m)?\]?\s*$] *)
Definition re_marks_tail : regex :=
  Seqs [Star true Space; Opt (C "["); Plus true Digit; Star true Space;
        Opt re_mark_word_m; Opt (C "]"); Star true Space; Eol].

(** The body of [for q_num, q_content in matches]: the records it
    appends (none or one). *)
Definition block (chapter_name : string) (q_content : string)
  : list QuestionRecord :=
  let q_content := clean_text q_content in
  if Nat.ltb (String.length q_content) 15 then []
  else
    let ans_match := Re.search IGNORECASE re_answer q_content in
    let answer :=
      match ans_match with
      | Some m => Some (clean_text (Re.group 1 m))
      | None => None
      end in
    let q_content :=
      match ans_match with
      | Some m => Py.strip (Py.take (m_start m) q_content)
      | None => q_content
      end in
    let opts :=
      map (fun opt_match =>
             Py.upper (Re.group 1 opt_match) +:+ ") "
             +:+ clean_text (Re.group 2 opt_match))
          (Re.finditer NOFLAGS re_inline_option q_content) in
    let q_content :=
      match opts with
      | [] => q_content
      | _ =>
          match Re.search NOFLAGS re_first_opt q_content with
          | Some first_opt => Py.strip (Py.take (m_start first_opt) q_content)
          | None => q_content
          end
      end in
    let q_type := detect_question_type q_content opts in
    let m :=
      Py.or_default (extract_marks q_content)
                    (if is_mcq q_type then 1 else 2) in
    let q_content :=
      Py.strip (Re.sub IGNORECASE re_marks_tail "" q_content) in
    if Nat.ltb 15 (String.length q_content)
    then [ {| questionText := q_content;
              type := q_type;
              marks := m;
              options := list_or_None opts;
              correctAnswer := answer;
              chapter := chapter_name;
              source := Some ("Chapter Bank - " +:+ chapter_name) |} ]
    else [].

(** [parse_chapter_bank]. *)
Definition parse_chapter_bank (doc : Document) (chapter_name : string)
  : list QuestionRecord :=
  let full_text := Py.join Py.nl_str doc in
  let matches :=
    map (fun m => (Re.group 1 m, Re.group 2 m))
        (Re.finditer DOTALL_IGNORECASE q_pattern full_text) in
  flat_map (fun qm => block chapter_name (snd qm)) matches.

(** ** [main] *)

(** The body of the loop over [chapter_files]: the structured extractor,
    and the universal parser when it yields fewer than five records. *)
Definition chapter_questions (doc : Document) (chapter : string)
  : list QuestionRecord :=
  let questions := parse_chapter_bank doc chapter in
  if Nat.ltb (length questions) 5
  then parse_document_universal doc ("Chapter - " +:+ chapter) chapter
  else questions.

(** [q["questionText"][:100].lower().strip()]. *)
Definition q_hash (q : QuestionRecord) : string :=
  Py.strip (Py.lower (Py.take 100 (questionText q))).

(** The loop [for q in all_questions] over [seen] and
    [unique_questions]. *)
Fixpoint dedup_loop (seen : gset string)
  (unique_questions : list QuestionRecord)
  (all_questions : list QuestionRecord) : list QuestionRecord :=
  match all_questions with
  | [] => unique_questions
  | q :: all_questions' =>
      if bool_decide (q_hash q ∈ seen)
      then dedup_loop seen unique_questions all_questions'
      else dedup_loop ({[q_hash q]} ∪ seen) (unique_questions ++ [q])
                      all_questions'
  end.

Definition dedup (all_questions : list QuestionRecord)
  : list QuestionRecord :=
  dedup_loop ∅ [] all_questions.

(** [main] on the chapter banks and the papers that could be read. *)
Definition main (chapter_files : list (Document * string))
  (paper_files : list (Document * string)) : list QuestionRecord :=
  let all_questions :=
    flat_map (fun f => chapter_questions (fst f) (snd f)) chapter_files
    ++ flat_map (fun f => parse_document_universal (fst f) (snd f) "Mixed")
                paper_files in
  dedup all_questions.

End V2.

(* ===================================================================== *)
(** * parse_all_docs.py *)
(* ===================================================================== *)

Module V1.

(** [clean_text]: one page-marker shape, removed without a space. *)
Definition clean_text (text : string) : string :=
  let text := Re.sub NOFLAGS re_page_slash "" text in
  let text := Py.join " " (Py.split_ws text) in
  Py.strip text.

(** [extract_marks]: the four shared shapes only. *)
Definition patterns : list regex := marks_shapes.

Definition extract_marks (text : string) : option N :=
  first_marks patterns text.

(** [detect_question_type]. *)
Definition detect_question_type (text : string) (options : list string)
  : QType :=
  let text_lower := Py.lower text in
  if negb (Nat.eqb (length options) 0) && Nat.leb 2 (length options)
  then mcq
  else if Py.contains "true or false" text_lower
          || Py.contains "true/false" text_lower
  then true_false
  else if Py.contains "assertion" text_lower
          && Py.contains "reason" text_lower
  then assertion_reason
  else if Py.contains "fill in" text_lower
          || Py.contains "fill up" text_lower
  then fill_blank
  else if Py.contains "match" text_lower
          && Py.contains "column" text_lower
  then matching
  else
    match extract_marks text with
    | Some marks =>
        if negb (marks =? 0)%N then
          if (4 <=? marks)%N then long_answer
          else if (2 <=? marks)%N then short_answer
          else short_answer
        else short_answer
    | None => short_answer
    end.

(** ** [parse_chapter_question_bank] *)

(** [^(?:Q\.?\s* )?(\d+)[.\)]\s*(.+)] (the prefix group is written with
    a space before its closing parenthesis here). *)
Definition re_bank_question : regex :=
  Seqs [Bol; re_q_prefix; Group 1 (Plus true Digit);
        OneOf [IC "."; IC ")"]; Star true Space; Group 2 (Plus true Any)].

(** [^(?:Ans(?:wer)?|Correct\s*Answer)[:\s]+(.+)] *)
Definition re_answer_line : regex :=
  Seqs [Bol;
        Alt (Seq (Lit "Ans") (Opt (Lit "wer")))
            (Seqs [Lit "Correct"; Star true Space; Lit "Answer"]);
        Plus true (OneOf [IC ":"; ISpace]);
        Group 1 (Plus true Any)].

(** [\[?\d+\s*(?:mark|marks|m)?\]?$] *)
Definition re_marks_suffix : regex :=
  Seqs [Opt (C "["); Plus true Digit; Star true Space; Opt re_mark_word_m;
        Opt (C "]"); Eol].

Record bstate : Type :=
  { b_questions : list QuestionRecord;
    b_current_question : option string;
    b_current_options : list string;
    b_current_answer : option string }.

Definition b_init : bstate :=
  {| b_questions := []; b_current_question := None;
     b_current_options := []; b_current_answer := None |}.

Section Bank.

Variable chapter_name : string.

(** The record built from the open question. *)
Definition b_record (current_question : string) (opts : list string)
  (answer : option string) : QuestionRecord :=
  let q_type := detect_question_type current_question opts in
  {| questionText :=
       Py.strip (Re.sub IGNORECASE re_marks_suffix "" current_question);
     type := q_type;
     marks := Py.or_default (extract_marks current_question)
                            (if is_mcq q_type then 1 else 2);
     options := list_or_None opts;
     correctAnswer := answer;
     chapter := chapter_name;
     source := None |}.

(** [if current_question: ... questions.append({...})]. *)
Definition b_emitted (st : bstate) : list QuestionRecord :=
  match b_current_question st with
  | Some q =>
      if nonempty q
      then [b_record q (b_current_options st) (b_current_answer st)]
      else []
  | None => []
  end.

(** The body of [for line in lines]. *)
Definition b_step (st : bstate) (raw : string) : bstate :=
  let line := clean_text raw in
  if negb (nonempty line) then st
  else
    match Re.match_ NOFLAGS re_bank_question line with
    | Some q_match =>
        {| b_questions := b_questions st ++ b_emitted st;
           b_current_question := Some (Re.group 2 q_match);
           b_current_options := [];
           b_current_answer := None |}
    | None =>
        match Re.match_ NOFLAGS re_option_line line,
              truthy_str (b_current_question st) with
        | Some opt_match, true =>
            {| b_questions := b_questions st;
               b_current_question := b_current_question st;
               b_current_options :=
                 b_current_options st
                 ++ [Re.group 1 opt_match +:+ ") "
                     +:+ Re.group 2 opt_match];
               b_current_answer := b_current_answer st |}
        | _, _ =>
            match Re.match_ IGNORECASE re_answer_line line with
            | Some ans_match =>
                {| b_questions := b_questions st;
                   b_current_question := b_current_question st;
                   b_current_options := b_current_options st;
                   b_current_answer :=
                     Some (Py.strip (Re.group 1 ans_match)) |}
            | None =>
                match b_current_question st with
                | Some q =>
                    if nonempty q && nonempty line
                    then
                      {| b_questions := b_questions st;
                         b_current_question :=
                           Some (q +:+ " " +:+ line);
                         b_current_options := b_current_options st;
                         b_current_answer := b_current_answer st |}
                    else st
                | None => st
                end
            end
        end
    end.

(** The loop, then the last question. *)
Definition b_run (lines : list string) : list QuestionRecord :=
  let st := fold_left b_step lines b_init in
  b_questions st ++ b_emitted st.

End Bank.

(** [full_text.split('\n')] of the joined paragraphs. *)
Definition bank_lines (doc : Document) : list string :=
  Py.split_on Py.nl (Py.join Py.nl_str doc).

(** [parse_chapter_question_bank]. *)
Definition parse_chapter_question_bank (doc : Document)
  (chapter_name : string) : list QuestionRecord :=
  b_run chapter_name (bank_lines doc).

(** ** [parse_question_paper] *)

(** [^(Section|SECTION|General Instructions|Time|Maximum Marks|CLASS|
    COMPUTER SCIENCE)] *)
Definition re_header : regex :=
  Seq Bol
    (Group 1
       (Alts [Lit "Section"; Lit "SECTION"; Lit "General Instructions";
              Lit "Time"; Lit "Maximum Marks"; Lit "CLASS";
              Lit "COMPUTER SCIENCE"])).

(** [^(\d+)[.\)]\s*(.+)] *)
Definition re_paper_question : regex :=
  Seqs [Bol; Group 1 (Plus true Digit); OneOf [IC "."; IC ")"];
        Star true Space; Group 2 (Plus true Any)].

Record pstate : Type :=
  { p_questions : list QuestionRecord;
    p_current_question : option string;
    p_current_options : list string;
    p_current_marks : option N;
    p_in_options : bool }.

Definition p_init : pstate :=
  {| p_questions := []; p_current_question := None;
     p_current_options := []; p_current_marks := None;
     p_in_options := false |}.

Section Paper.

Variable paper_name : string.

Definition p_record (current_question : string) (opts : list string)
  (cur_marks : option N) : QuestionRecord :=
  let q_type := detect_question_type current_question opts in
  {| questionText := current_question;
     type := q_type;
     marks := Py.or_default cur_marks (if is_mcq q_type then 1 else 2);
     options := list_or_None opts;
     correctAnswer := None;
     chapter := "Mixed";
     source := Some paper_name |}.

(** [if current_question and len(current_question) > 10: ...
    questions.append({...})]. *)
Definition p_emitted (st : pstate) : list QuestionRecord :=
  match p_current_question st with
  | Some q =>
      if nonempty q && Nat.ltb 10 (String.length q)
      then [p_record q (p_current_options st) (p_current_marks st)]
      else []
  | None => []
  end.

Definition p_is_header (line : string) : bool :=
  match Re.match_ NOFLAGS re_header line with
  | Some _ => true
  | None => false
  end.

(** The body of [for i, line in enumerate(lines)]. *)
Definition p_step (st : pstate) (raw : string) : pstate :=
  let line := clean_text raw in
  if negb (nonempty line) then st
  else if p_is_header line then st
  else
    match Re.match_ NOFLAGS re_paper_question line with
    | Some q_match =>
        {| p_questions := p_questions st ++ p_emitted st;
           p_current_question := Some (Re.group 2 q_match);
           p_current_options := [];
           p_current_marks := extract_marks line;
           p_in_options := false |}
    | None =>
        match Re.match_ NOFLAGS re_option_line line,
              truthy_str (p_current_question st) with
        | Some opt_match, true =>
            {| p_questions := p_questions st;
               p_current_question := p_current_question st;
               p_current_options :=
                 p_current_options st
                 ++ [Py.upper (Re.group 1 opt_match) +:+ ") "
                     +:+ Re.group 2 opt_match];
               p_current_marks := p_current_marks st;
               p_in_options := true |}
        | _, _ =>
            match Re.match_ IGNORECASE re_or_marker line with
            | Some _ => st
            | None =>
                match p_current_question st with
                | Some q =>
                    if nonempty q && negb (p_in_options st)
                    then
                      {| p_questions := p_questions st;
                         p_current_question :=
                           Some (q +:+ " " +:+ line);
                         p_current_options := p_current_options st;
                         p_current_marks := p_current_marks st;
                         p_in_options := p_in_options st |}
                    else st
                | None => st
                end
            end
        end
    end.

Definition p_run (lines : list string) : list QuestionRecord :=
  let st := fold_left p_step lines p_init in
  p_questions st ++ p_emitted st.

End Paper.

(** The lines of [parse_question_paper]: the joined paragraphs with
    every page marker turned into a line break, split at line breaks. *)
Definition paper_lines (doc : Document) : list string :=
  let full_text := Py.join Py.nl_str doc in
  let full_text := Re.sub NOFLAGS re_page_slash Py.nl_str full_text in
  Py.split_on Py.nl full_text.

(** [parse_question_paper]. *)
Definition parse_question_paper (doc : Document) (paper_name : string)
  : list QuestionRecord :=
  p_run paper_name (paper_lines doc).

End V1.

(* ===================================================================== *)
(** * upload_questions.py: the loop over the batches *)
(* ===================================================================== *)

Module Upload.

Definition BATCH_SIZE : nat := 50.

(** [range(i, n, BATCH_SIZE)]; it has at most [n] members, which [fuel]
    counts. *)
Fixpoint range_from (fuel i n : nat) : list nat :=
  match fuel with
  | O => []
  | S fuel' =>
      if Nat.ltb i n then i :: range_from fuel' (i + BATCH_SIZE) n else []
  end.

(** [range(0, len(questions), BATCH_SIZE)]. *)
Definition starts (n : nat) : list nat := range_from n 0 n.

(** [questions[i:i+BATCH_SIZE]]. *)
Definition batch_at {A : Type} (questions : list A) (i : nat) : list A :=
  firstn BATCH_SIZE (skipn i questions).

(** The batches that the loop uploads, in order. *)
Definition batches {A : Type} (questions : list A) : list (list A) :=
  map (batch_at questions) (starts (length questions)).

(** [(len(questions) + BATCH_SIZE - 1) // BATCH_SIZE]. *)
Definition total_batches (n : nat) : nat :=
  (n + BATCH_SIZE - 1) / BATCH_SIZE.

(** What the [try] block of the loop comes to.  [Uploaded count]: the
    status is 200 and the reply is read; [count] is the integer under the
    key [count] of the reply, [None] when the reply has no such key.
    [NotUploaded]: another status, or an exception anywhere in the block
    (the request, the decoding of the reply, the addition of a count that
    is no number); both append the number of the batch to
    [failed_batches] and leave [total_uploaded] as it was. *)
Inductive outcome : Type :=
| Uploaded (count : option Z)
| NotUploaded.

(** The variables of the loop: [total_uploaded] and [failed_batches]. *)
Record totals : Type :=
  { total_uploaded : Z; failed_batches : list nat }.

Section Loop.

Context {A : Type}.

(** The reply to the upload of a batch.  The server is outside the
    program: the reply is a function of the number of the batch, which
    the loop uses once each, and of the batch. *)
Variable upload_batch : nat -> list A -> outcome.

Variable questions : list A.

(** The body of the loop at index [i]. *)
Definition upload_step (t : totals) (i : nat) : totals :=
  let batch := batch_at questions i in
  let batch_num := i / BATCH_SIZE + 1 in
  match upload_batch batch_num batch with
  | Uploaded count =>
      {| total_uploaded :=
           (total_uploaded t
            + match count with
              | Some c => c
              | None => Z.of_nat (length batch)
              end)%Z;
         failed_batches := failed_batches t |}
  | NotUploaded =>
      {| total_uploaded := total_uploaded t;
         failed_batches := failed_batches t ++ [batch_num] |}
  end.

Definition upload_all : totals :=
  fold_left upload_step (starts (length questions))
            {| total_uploaded := 0%Z; failed_batches := [] |}.

End Loop.

End Upload.

(* ===================================================================== *)
(** * Sample records, states and documents *)
(* ===================================================================== *)

Module Samples.

Definition record_of (text src : string) : QuestionRecord :=
  {| questionText := text; type := short_answer; marks := 2;
     options := None; correctAnswer := None; chapter := "Mixed";
     source := Some src |}.

(** Three records; the third has the fingerprint of the first. *)
Definition qa : QuestionRecord := record_of "What is Python?" "Paper A".
Definition qb : QuestionRecord := record_of "Define a list." "Paper A".
Definition qa' : QuestionRecord :=
  record_of "  WHAT is python? " "Paper B".

(** A document without any numbering marker. *)
Definition unnumbered : Document :=
  ["Read the passage and answer."; "(a) first choice"; "(b) second choice";
   "Ans: the first"; "OR"; "Section A: General Instructions";
   "a closing remark"].

(** Open candidates of the three line-based loops. *)
Definition u_open (buffer : list string) : V2.ustate :=
  {| V2.questions := []; V2.current_q_num := Some "1";
     V2.current_options := []; V2.current_marks := None;
     V2.question_buffer := buffer |}.

Definition p_open (q : string) : V1.pstate :=
  {| V1.p_questions := []; V1.p_current_question := Some q;
     V1.p_current_options := []; V1.p_current_marks := None;
     V1.p_in_options := false |}.

Definition b_open (q : string) : V1.bstate :=
  {| V1.b_questions := []; V1.b_current_question := Some q;
     V1.b_current_options := []; V1.b_current_answer := None |}.

End Samples.

(* ===================================================================== *)
(** * Notions used by the statements *)
(* ===================================================================== *)

(** What the chapter-bank loop of [V1] outputs from a state: the records
    so far and the open question. *)
Definition b_output (chapter_name : string) (st : V1.bstate)
  : list QuestionRecord :=
  V1.b_questions st ++ V1.b_emitted chapter_name st.

(** Two states of the chapter-bank loop without an open question that
    differ at most in the answer they hold. *)
Definition b_alike (st1 st2 : V1.bstate) : Prop :=
  st1 = st2
  ∨ (V1.b_current_question st1 = None
     ∧ V1.b_current_question st2 = None
     ∧ V1.b_questions st1 = V1.b_questions st2
     ∧ V1.b_current_options st1 = V1.b_current_options st2).

(** The options invariant of an emitted record: an options list that is
    present is not empty, and the type is mcq exactly when the list has two
    or more entries. *)
Definition options_wf (r : QuestionRecord) : Prop :=
  ∀ opts : list string,
    options r = Some opts →
    (1 ≤ length opts)%nat ∧ (type r = mcq ↔ (2 ≤ length opts)%nat).

(** A text without white space, and a word: such a text that is not
    empty. *)
Fixpoint nospace (s : string) : Prop :=
  match s with
  | EmptyString => True
  | String c s' => Py.isspace c = false ∧ nospace s'
  end.

Definition is_word (w : string) : Prop := w ≠ "" ∧ nospace w.

(** No shape in the list is found in the text. *)
Definition no_shape (shapes : list regex) (text : string) : Prop :=
  Forall (λ p, Re.search IGNORECASE p text = None) shapes.

(* ===================================================================== *)
(** * Notions used by the further properties *)
(* ===================================================================== *)

(** A chapter bank of five questions with inline answers. *)
Definition bank_of_five : Document :=
  ["1. What is a lambda function? Ans: A function defined with no name.";
   "2. What is a recursive function? Ans: A function that calls itself.";
   "3. What is the use of the return keyword? Ans: It gives the result.";
   "4. What is the scope of a name? Ans: The region where it is known.";
   "5. What is a module in Python? Ans: A file of Python code."].

(** The lines at which the three line-based loops start a question: the
    universal loop at a line that is no header and matches one of
    [q_patterns]; the simple-paper loop at a line whose cleaned text is not
    empty, no header and a numbered line; the chapter-bank loop at a line
    whose cleaned text is not empty and a numbered line. *)
Definition u_boundary (line : string) : bool :=
  negb (V2.is_header line)
  && match V2.first_boundary V2.q_patterns line with
     | Some _ => true
     | None => false
     end.

Definition p_boundary (raw : string) : bool :=
  nonempty (V1.clean_text raw)
  && negb (V1.p_is_header (V1.clean_text raw))
  && match Re.match_ NOFLAGS V1.re_paper_question (V1.clean_text raw) with
     | Some _ => true
     | None => false
     end.

Definition b_boundary (raw : string) : bool :=
  nonempty (V1.clean_text raw)
  && match Re.match_ NOFLAGS V1.re_bank_question (V1.clean_text raw) with
     | Some _ => true
     | None => false
     end.

(** A state of a loop with more records in front of its output. *)
Definition u_prepend (qs : list QuestionRecord) (st : V2.ustate)
  : V2.ustate :=
  {| V2.questions := qs ++ V2.questions st;
     V2.current_q_num := V2.current_q_num st;
     V2.current_options := V2.current_options st;
     V2.current_marks := V2.current_marks st;
     V2.question_buffer := V2.question_buffer st |}.

Definition p_prepend (qs : list QuestionRecord) (st : V1.pstate)
  : V1.pstate :=
  {| V1.p_questions := qs ++ V1.p_questions st;
     V1.p_current_question := V1.p_current_question st;
     V1.p_current_options := V1.p_current_options st;
     V1.p_current_marks := V1.p_current_marks st;
     V1.p_in_options := V1.p_in_options st |}.

Definition b_prepend (qs : list QuestionRecord) (st : V1.bstate)
  : V1.bstate :=
  {| V1.b_questions := qs ++ V1.b_questions st;
     V1.b_current_question := V1.b_current_question st;
     V1.b_current_options := V1.b_current_options st;
     V1.b_current_answer := V1.b_current_answer st |}.

(** The universal loop after [n] boundaries. Without a boundary so far the state is the initial one; after [n + 1]
    boundaries at most [n] records are out. *)
Definition u_counted (st : V2.ustate) (n : nat) : Prop :=
  match n with
  | O => st = V2.init
  | S n' => length (V2.questions st) <= n'
  end.

(** The same for the simple-paper loop and for the chapter-bank loop (which
    may hold an answer before its first boundary). *)
Definition p_counted (st : V1.pstate) (n : nat) : Prop :=
  match n with
  | O => st = V1.p_init
  | S n' => length (V1.p_questions st) <= n'
  end.

Definition b_counted (st : V1.bstate) (n : nat) : Prop :=
  match n with
  | O => b_alike st V1.b_init
  | S n' => length (V1.b_questions st) <= n'
  end.

(** A text without a decimal digit. *)
Fixpoint nodigit (s : string) : Prop :=
  match s with
  | EmptyString => True
  | String c s' => Py.isdigit c = false ∧ nodigit s'
  end.

(** A pattern that cannot match without reading a digit: a sufficient
    test on the syntax of the pattern. *)
Fixpoint needs_digit (r : regex) : bool :=
  match r with
  | Digit => true
  | Seq r1 r2 => needs_digit r1 || needs_digit r2
  | Alt r1 r2 => needs_digit r1 && needs_digit r2
  | Group _ r' => needs_digit r'
  | _ => false
  end.

(** The groups that a pattern closes. *)
Fixpoint mentions (g : nat) (r : regex) : bool :=
  match r with
  | Seq r1 r2 | Alt r1 r2 => mentions g r1 || mentions g r2
  | Star _ r' | Look r' => mentions g r'
  | Group n r' => Nat.eqb g n || mentions g r'
  | _ => false
  end.

(** The letters of an option, [[a-dA-D]], and the shape of an option
    string: a letter, a closing parenthesis, a space, and the text. *)
Definition option_letters : list item := [IR "a" "d"; IR "A" "D"].

Definition lettered (letters : list ascii) (o : string) : Prop :=
  ∃ (c : ascii) (text : string),
    c ∈ letters ∧ o = String c (") " +:+ text).

Definition upper_letters : list ascii :=
  [ch "A"; ch "B"; ch "C"; ch "D"].

Definition any_letters : list ascii :=
  [ch "a"; ch "b"; ch "c"; ch "d"; ch "A"; ch "B"; ch "C"; ch "D"].

(** The options of a record, when present, all have the shape. *)
Definition options_lettered (letters : list ascii) (r : QuestionRecord)
  : Prop :=
  ∀ opts : list string,
    options r = Some opts → Forall (lettered letters) opts.

(** The chapter-bank loop after [n] boundaries: without a boundary it has
    no open question; after [n + 1] boundaries [n] records are out and a
    question is open. *)
Definition b_exact (st : V1.bstate) (n : nat) : Prop :=
  match n with
  | O => b_alike st V1.b_init
  | S n' =>
      length (V1.b_questions st) = n'
      ∧ truthy_str (V1.b_current_question st) = true
  end.

(** The number of members of a list that satisfy a test. *)
Definition count {A : Type} (f : A -> bool) (l : list A) : nat :=
  length (List.filter f l).

(** Every member of a list that computes satisfies a property that
    computes. *)
(** The server counts what it is sent: a reply that carries a count
    carries the size of the batch. *)
Definition honest {A : Type}
    (upload_batch : nat -> list A -> Upload.outcome) : Prop :=
  forall k b c,
    upload_batch k b = Upload.Uploaded (Some c) -> c = Z.of_nat (length b).

(** The batch that the loop numbers [k]; the numbers start at 1. *)
Definition batch_numbered {A : Type} (questions : list A) (k : nat)
  : list A :=
  nth (k - 1) (Upload.batches questions) [].

(** How many questions the batches numbered [ks] hold. *)
Definition questions_in {A : Type} (questions : list A) (ks : list nat)
  : nat :=
  list_sum (map (fun k => length (batch_numbered questions k)) ks).

Ltac all_by_computation :=
  repeat (constructor; [vm_compute; reflexivity|]); constructor.

(* ===================================================================== *)
(** * The matcher: positions and fuel *)
(* ===================================================================== *)

Section Matcher.

Implicit Types (st : mstate) (k : mstate → option mstate) (s : string).

Lemma drop_length n s : String.length (Py.drop n s) = String.length s - n.
Proof.
  revert s. induction n as [|n IH]; intros [|c s]; simpl; auto.
Qed.

Lemma drop_drop n m s : Py.drop m (Py.drop n s) = Py.drop (n + m) s.
Proof.
  revert s. induction n as [|n IH]; intros s; simpl; [done|].
  destruct s as [|c s]; [by destruct m|apply IH].
Qed.

Lemma ahead_refl st : ahead 0 st st.
Proof. unfold ahead. split_and!; [lia|done|lia]. Qed.

Lemma ahead_trans n m st1 st2 st3 :
  ahead n st1 st2 → ahead m st2 st3 → ahead (n + m) st1 st3.
Proof.
  intros (Hp1 & Hr1 & Hn) (Hp2 & Hr2 & Hm). unfold ahead.
  rewrite Hr1, drop_length in Hm. split_and!; [lia| |lia].
  by rewrite Hr2, Hr1, drop_drop.
Qed.

Lemma ahead_close_group g n st0 st st' :
  ahead n st st' → ahead n st (close_group g st0 st').
Proof. done. Qed.

Lemma eat_hands_ahead p : hands_ahead (eat p).
Proof.
  intros k st res. unfold eat. destruct (rest st) as [|x t] eqn:E; [done|].
  destruct (p x); [|done]. intros H. eexists 1, _. split; [|exact H].
  unfold ahead. simpl. rewrite E. simpl. split_and!; [lia|done|lia].
Qed.

Lemma eat_looks_ahead p : looks_ahead (eat p).
Proof.
  intros k1 k2 st H. unfold eat. destruct (rest st) as [|x t] eqn:E; [done|].
  destruct (p x); [|done]. apply (H 1).
  unfold ahead. simpl. rewrite E. simpl. split_and!; [lia|done|lia].
Qed.

Lemma star_loop_hands_ahead body greedy k :
  hands_ahead body →
  ∀ fuel st res, star_loop body greedy k fuel st = Some res →
                 ∃ n st', ahead n st st' ∧ k st' = Some res.
Proof.
  intros Hbody. induction fuel as [|fuel IH]; intros st res; simpl.
  - intros H. exists 0, st. split; [apply ahead_refl|done].
  - assert (∀ r, body (λ st', if Nat.ltb (pos st) (pos st')
                              then star_loop body greedy k fuel st'
                              else None) st = Some r →
                 ∃ n st', ahead n st st' ∧ k st' = Some r) as Hmore.
    { intros r (n & st1 & Hst1 & H)%Hbody.
      destruct (Nat.ltb (pos st) (pos st1)); [|done].
      apply IH in H as (m & st2 & Hst2 & H).
      exists (n + m), st2. split; [by eapply ahead_trans|done]. }
    assert (∀ r, k st = Some r → ∃ n st', ahead n st st' ∧ k st' = Some r)
      as Hleave.
    { intros r H. exists 0, st. split; [apply ahead_refl|done]. }
    destruct greedy.
    + destruct (body _ st) as [r|] eqn:E.
      * intros [= <-]. by apply Hmore.
      * apply Hleave.
    + destruct (k st) as [r|] eqn:E.
      * intros [= <-]. by apply Hleave.
      * apply Hmore.
Qed.

Lemma run_hands_ahead f r : hands_ahead (run f r).
Proof.
  induction r as [| | | | | | | | |r1 IH1 r2 IH2|r1 IH1 r2 IH2|g r IH|g r IH
                 |r IH]; intros k st res; cbn [run];
    try apply eat_hands_ahead.
  - intros H. exists 0, st. split; [apply ahead_refl|done].
  - destruct (Nat.eqb (pos st) 0); [|done].
    intros H. exists 0, st. split; [apply ahead_refl|done].
  - destruct (at_end (rest st)); [|done].
    intros H. exists 0, st. split; [apply ahead_refl|done].
  - intros (n & st1 & Hst1 & (m & st2 & Hst2 & H)%IH2)%IH1.
    exists (n + m), st2. split; [by eapply ahead_trans|done].
  - destruct (run f r1 k st) as [x|] eqn:E.
    + intros [= <-]. by apply IH1.
    + apply IH2.
  - by apply star_loop_hands_ahead.
  - intros (n & st1 & Hst1 & H)%IH.
    exists n, (close_group g st st1). split; [done|done].
  - destruct (run f r Some st); [|done].
    intros H. exists 0, st. split; [apply ahead_refl|done].
Qed.

Lemma star_loop_looks_ahead body greedy :
  looks_ahead body →
  ∀ fuel k1 k2 st,
    (∀ n st', ahead n st st' → k1 st' = k2 st') →
    star_loop body greedy k1 fuel st = star_loop body greedy k2 fuel st.
Proof.
  intros Hbody. induction fuel as [|fuel IH]; intros k1 k2 st H; simpl.
  - apply (H 0), ahead_refl.
  - rewrite (H 0 st (ahead_refl st)).
    rewrite (Hbody _ (λ st', if Nat.ltb (pos st) (pos st')
                             then star_loop body greedy k2 fuel st'
                             else None) st); [done|].
    intros n st1 Hst1. destruct (Nat.ltb (pos st) (pos st1)); [|done].
    apply IH. intros m st2 Hst2. apply (H (n + m)). by eapply ahead_trans.
Qed.

Lemma run_looks_ahead f r : looks_ahead (run f r).
Proof.
  induction r as [| | | | | | | | |r1 IH1 r2 IH2|r1 IH1 r2 IH2|g r IH|g r IH
                 |r IH]; intros k1 k2 st H; cbn [run];
    try (by apply eat_looks_ahead).
  - apply (H 0), ahead_refl.
  - destruct (Nat.eqb (pos st) 0); [|done]. apply (H 0), ahead_refl.
  - destruct (at_end (rest st)); [|done]. apply (H 0), ahead_refl.
  - apply IH1. intros n st1 Hst1. apply IH2. intros m st2 Hst2.
    apply (H (n + m)). by eapply ahead_trans.
  - by rewrite (IH1 k1 k2 st H), (IH2 k1 k2 st H).
  - by apply star_loop_looks_ahead.
  - apply IH. intros n st1 Hst1. by apply (H n).
  - destruct (run f r Some st); [|done]. apply (H 0), ahead_refl.
Qed.

(** More rounds than the text has characters make no difference to a
    star. *)
Lemma star_loop_fuel body greedy k :
  looks_ahead body →
  ∀ n m st,
    String.length (rest st) < n → String.length (rest st) < m →
    star_loop body greedy k n st = star_loop body greedy k m st.
Proof.
  intros Hbody. induction n as [|n IH]; intros m st Hn Hm; [lia|].
  destruct m as [|m]; [lia|]. simpl.
  rewrite (Hbody _ (λ st', if Nat.ltb (pos st) (pos st')
                           then star_loop body greedy k m st'
                           else None) st); [done|].
  intros j st1 (Hpos & Hrest & Hj).
  destruct (Nat.ltb (pos st) (pos st1)) eqn:E; [|done].
  apply Nat.ltb_lt in E.
  apply IH; rewrite Hrest, drop_length; lia.
Qed.

Lemma run_star_fuel f greedy r k n st :
  String.length (rest st) < n →
  star_loop (run f r) greedy k n st = run f (Star greedy r) k st.
Proof.
  intros H. cbn [run].
  apply star_loop_fuel; [apply run_looks_ahead|done|lia].
Qed.

(** A match lies inside the text. *)
Lemma attempt_span f r p s m :
  attempt f r p s = Some m →
  m_start m = p ∧ p <= m_end m ∧ m_end m <= p + String.length s.
Proof.
  unfold attempt.
  destruct (run f r Some _) as [st'|] eqn:E; [|done]. intros [= <-].
  apply run_hands_ahead in E as (n & st1 & (Hpos & _ & Hn) & [= ->]).
  simpl in *. lia.
Qed.

Lemma search_from_span f r s :
  ∀ p m, search_from f r p s = Some m →
         p <= m_start m ∧ m_start m <= m_end m
         ∧ m_end m <= p + String.length s.
Proof.
  induction s as [|c s IH]; intros p m; simpl.
  - destruct (attempt f r p "") as [m'|] eqn:E; [|done]. intros [= <-].
    apply attempt_span in E. simpl in E. lia.
  - destruct (attempt f r p (String c s)) as [m'|] eqn:E.
    + intros [= <-]. apply attempt_span in E. simpl in E. lia.
    + intros H%IH. lia.
Qed.

(** More fuel than the text has characters makes no difference to the
    list of matches. *)
Lemma finditer_from_fuel f r :
  ∀ n m p s,
    String.length s < n → String.length s < m →
    finditer_from n f r p s = finditer_from m f r p s.
Proof.
  induction n as [|n IH]; intros m p s Hn Hm; [lia|].
  destruct m as [|m]; [lia|]. simpl.
  destruct (search_from f r p s) as [mt|] eqn:E; [|done].
  apply search_from_span in E as (H1 & H2 & H3). f_equal.
  destruct (Nat.ltb (m_start mt) (m_end mt)) eqn:Hlt.
  - apply Nat.ltb_lt in Hlt. apply IH; rewrite drop_length; lia.
  - pose proof (drop_length (m_end mt - p) s) as Hlen.
    destruct (Py.drop (m_end mt - p) s) as [|c t]; [done|].
    simpl in Hlen. apply IH; lia.
Qed.

End Matcher.

(* ===================================================================== *)
(** * Worked documents *)
(* ===================================================================== *)

(** C1. On the four lines "1. What is inheritance? [2]", "(a) concept one",
    "(b) concept two", "2. Explain polymorphism with an example." the
    universal parser emits exactly two records: the first with the text
    "What is inheritance?", type mcq, 2 marks and the options
    "A) concept one", "B) concept two"; the second with the text
    "Explain polymorphism with an example.", type short_answer and the
    default of 2 marks. *)
Theorem universal_round_trip :
  forall source_name chapter_default : string,
    V2.parse_document_universal
      ["1. What is inheritance? [2]"; "(a) concept one"; "(b) concept two";
       "2. Explain polymorphism with an example."]
      source_name chapter_default
    = [ {| questionText := "What is inheritance?";
           type := mcq;
           marks := 2;
           options := Some ["A) concept one"; "B) concept two"];
           correctAnswer := None;
           chapter := chapter_default;
           source := Some source_name |};
        {| questionText := "Explain polymorphism with an example.";
           type := short_answer;
           marks := 2;
           options := None;
           correctAnswer := None;
           chapter := chapter_default;
           source := Some source_name |} ].
Proof. intros. vm_compute. reflexivity. Qed.

(** The names under which the two types of C1 are written out. *)
Lemma type_names_of_round_trip :
  type_name mcq = "mcq" /\ type_name short_answer = "short_answer".
Proof. split; reflexivity. Qed.



(* ===================================================================== *)
(** * The type classifier *)
(* ===================================================================== *)

(** C3. With two or more options the classifier answers mcq, whatever the
    text says (keywords, marks annotations), in both parsers. *)
Theorem option_dominance :
  forall (text : string) (options : list string),
    2 <= length options ->
    V2.detect_question_type text options = mcq
    /\ V1.detect_question_type text options = mcq.
Proof.
  intros text [|a [|b options]] H; simpl in H; try lia.
  split; reflexivity.
Qed.

Lemma option_dominance_witness :
  2 <= length ["A) True"; "B) False"; "C) Both"; "D) None"]
  /\ V2.detect_question_type
       "State true or false: assertion and reason match column [5 marks]"
       ["A) True"; "B) False"; "C) Both"; "D) None"] = mcq
  /\ V1.detect_question_type
       "State true or false: assertion and reason match column [5 marks]"
       ["A) True"; "B) False"; "C) Both"; "D) None"] = mcq.
Proof.
  split; [simpl; lia |].
  apply (option_dominance
           "State true or false: assertion and reason match column [5 marks]"
           ["A) True"; "B) False"; "C) Both"; "D) None"]).
  simpl; lia.
Defined.

(** Without options the same text is classified by its keywords. *)
Example keywords_without_options :
  V2.detect_question_type
    "State true or false: assertion and reason match column [5 marks]" []
  = true_false.
Proof. vm_compute. reflexivity. Qed.

(* ===================================================================== *)
(** * The deduplication fold of [main] *)
(* ===================================================================== *)

Section Dedup.

Implicit Types (seen : gset string) (q : QuestionRecord).
Implicit Types (acc pre all : list QuestionRecord).

Lemma seen_absorbs (seen L : gset string) (h hp : string) :
  hp ∈ seen → h ∈ seen ∪ L ↔ h ∈ seen ∪ ({[hp]} ∪ L).
Proof. set_solver. Qed.

Lemma seen_shifts (seen L : gset string) (h hp : string) :
  h ∈ ({[hp]} ∪ seen) ∪ L ↔ h ∈ seen ∪ ({[hp]} ∪ L).
Proof. set_solver. Qed.

Lemma not_in_grown (seen : gset string) (h hp : string) :
  h ∉ {[hp]} ∪ seen → h ≠ hp ∧ h ∉ seen.
Proof. set_solver. Qed.

(** One more record at the end of the input: it is appended to the output
    unless its fingerprint was seen before the loop or in the input so
    far. *)
Lemma dedup_loop_snoc seen acc pre q :
  V2.dedup_loop seen acc (pre ++ [q])
  = if bool_decide
         (V2.q_hash q ∈ seen ∪ list_to_set (V2.q_hash <$> pre))
    then V2.dedup_loop seen acc pre
    else V2.dedup_loop seen acc pre ++ [q].
Proof.
  revert seen acc. induction pre as [|p pre IH]; intros seen acc.
  - cbn [app V2.dedup_loop fmap list_fmap list_to_set foldr].
    rewrite (bool_decide_ext (V2.q_hash q ∈ seen ∪ ∅) (V2.q_hash q ∈ seen))
      by set_solver.
    reflexivity.
  - rewrite <- app_comm_cons, fmap_cons, list_to_set_cons.
    cbn [V2.dedup_loop].
    destruct (bool_decide (V2.q_hash p ∈ seen)) eqn:Hp.
    + apply bool_decide_eq_true in Hp. rewrite IH.
      apply (f_equal (fun b : bool => if b then _ else _)).
      apply bool_decide_ext. by apply seen_absorbs.
    + rewrite IH.
      apply (f_equal (fun b : bool => if b then _ else _)).
      apply bool_decide_ext. apply seen_shifts.
Qed.

(** The output extends the accumulator by an order-preserving selection
    of the input, with one record per new fingerprint. *)
Lemma dedup_loop_selection seen acc all :
  ∃ out,
    V2.dedup_loop seen acc all = acc ++ out
    ∧ out `sublist_of` all
    ∧ NoDup (V2.q_hash <$> out)
    ∧ (∀ q, q ∈ out → V2.q_hash q ∉ seen)
    ∧ (∀ q, q ∈ all →
         V2.q_hash q ∈ seen ∨ ∃ q', q' ∈ out ∧ V2.q_hash q' = V2.q_hash q).
Proof.
  revert seen acc. induction all as [|p all IH]; intros seen acc; simpl.
  - exists []. rewrite app_nil_r. split_and!; auto.
    + constructor.
    + intros q Hq. inversion Hq.
    + intros q Hq. inversion Hq.
  - destruct (bool_decide (V2.q_hash p ∈ seen)) eqn:Hp.
    + apply bool_decide_eq_true in Hp.
      destruct (IH seen acc) as (out & -> & Hsub & Hnd & Hnew & Hall).
      exists out. split_and!; auto.
      * by apply sublist_cons.
      * intros q [->|Hq]%elem_of_cons; auto.
    + apply bool_decide_eq_false in Hp.
      destruct (IH ({[V2.q_hash p]} ∪ seen) (acc ++ [p]))
        as (out & -> & Hsub & Hnd & Hnew & Hall).
      exists (p :: out). rewrite <- app_assoc. split_and!; auto.
      * by apply sublist_skip.
      * rewrite fmap_cons. constructor; [|done].
        intros (q & Heq & Hq)%list_elem_of_fmap.
        apply Hnew, not_in_grown in Hq as [Hne _]. congruence.
      * intros q [->|Hq]%elem_of_cons; [done|].
        by apply Hnew, not_in_grown in Hq as [_ Hq].
      * intros q [->|Hq]%elem_of_cons.
        { right. exists p. split; [left|done]. }
        destruct (Hall q Hq) as [Hin|(q' & Hq' & Heq)].
        { apply elem_of_union in Hin as [Hin|Hin]; [|by left].
          apply elem_of_singleton in Hin.
          right. exists p. split; [left|done]. }
        right. exists q'. split; [by right|done].
Qed.

End Dedup.

(** C2. The deduplication fold keeps, of the records with one fingerprint
    (the stripped lower-case first 100 characters of the text), exactly the
    first in processing order and drops the later ones, and it keeps the
    retained records in their order: a record whose fingerprint no earlier
    record has is appended to the output, a record whose fingerprint an
    earlier record has leaves the output as it is; the output is an
    order-preserving selection of the input, holds no fingerprint twice and
    holds every fingerprint of the input. *)
Theorem dedup_first_wins :
  V2.dedup [] = []
  ∧ (∀ (pre : list QuestionRecord) (q : QuestionRecord),
       (∀ q', q' ∈ pre → V2.q_hash q' ≠ V2.q_hash q) →
       V2.dedup (pre ++ [q]) = V2.dedup pre ++ [q])
  ∧ (∀ (pre : list QuestionRecord) (q q' : QuestionRecord),
       q' ∈ pre → V2.q_hash q' = V2.q_hash q →
       V2.dedup (pre ++ [q]) = V2.dedup pre)
  ∧ (∀ all : list QuestionRecord,
       V2.dedup all `sublist_of` all
       ∧ NoDup (V2.q_hash <$> V2.dedup all)
       ∧ ∀ q, q ∈ all →
              ∃ q', q' ∈ V2.dedup all ∧ V2.q_hash q' = V2.q_hash q).
Proof.
  split_and!.
  - reflexivity.
  - intros pre q Hfresh. unfold V2.dedup. rewrite dedup_loop_snoc.
    rewrite bool_decide_eq_false_2; [done|].
    rewrite elem_of_union, elem_of_list_to_set, list_elem_of_fmap.
    intros [Hin|(q' & Heq & Hq')]; [by apply not_elem_of_empty in Hin|].
    by apply (Hfresh q').
  - intros pre q q' Hq' Heq. unfold V2.dedup. rewrite dedup_loop_snoc.
    rewrite bool_decide_eq_true_2; [done|].
    rewrite elem_of_union, elem_of_list_to_set, list_elem_of_fmap.
    right. by exists q'.
  - intros all. unfold V2.dedup.
    destruct (dedup_loop_selection ∅ [] all)
      as (out & -> & Hsub & Hnd & _ & Hall).
    simpl. split_and!; auto.
    intros q Hq.
    destruct (Hall q Hq) as [Hin|Hex]; [by apply not_elem_of_empty in Hin|done].
Qed.

Lemma dedup_first_wins_witness :
  V2.dedup ([Samples.qa; Samples.qb] ++ [Samples.qa'])
  = V2.dedup [Samples.qa; Samples.qb]
  ∧ V2.dedup ([Samples.qa] ++ [Samples.qb])
    = V2.dedup [Samples.qa] ++ [Samples.qb].
Proof.
  destruct dedup_first_wins as (_ & Hnew & Hdup & _). split.
  - apply (Hdup [Samples.qa; Samples.qb] Samples.qa' Samples.qa).
    + apply list_elem_of_here.
    + vm_compute. reflexivity.
  - apply (Hnew [Samples.qa] Samples.qb).
    intros q' Hq'. apply list_elem_of_singleton in Hq'. subst q'.
    vm_compute. discriminate.
Defined.

(** The merged output of the three sample records. *)
Example dedup_sample :
  V2.dedup [Samples.qa; Samples.qb; Samples.qa'] = [Samples.qa; Samples.qb].
Proof. vm_compute. reflexivity. Qed.

(* ===================================================================== *)
(** * The line-based loops: what a step can do to the output *)
(* ===================================================================== *)

(** A fold whose step leaves a state alone on every line of the list. *)
Lemma fold_left_fixed {S L : Type} (f : S → L → S) (s : S) (ls : list L) :
  Forall (λ l, f s l = s) ls → fold_left f ls s = s.
Proof. induction 1 as [|l ls Hl _ IH]; simpl; [done|by rewrite Hl]. Qed.

Section UniversalLoop.

Variables source_name chapter_default : string.

Local Abbreviation step := (V2.step source_name chapter_default).
Local Abbreviation emitted := (V2.emitted source_name chapter_default).
Local Abbreviation run_lines := (V2.run_lines source_name chapter_default).

(** A step appends to the output what [save_current_question] emits, or
    nothing. *)
Lemma u_step_questions st line :
  V2.questions (step st line) = V2.questions st
  ∨ V2.questions (step st line) = V2.questions st ++ emitted st.
Proof.
  unfold V2.step. repeat case_match; simpl; auto.
Qed.

Lemma u_fold_Forall (P : QuestionRecord → Prop) :
  (∀ st, Forall P (emitted st)) →
  ∀ lines st, Forall P (V2.questions st) →
              Forall P (V2.questions (fold_left step lines st)).
Proof.
  intros HP. induction lines as [|l lines IH]; intros st Hst; simpl; [done|].
  apply IH. destruct (u_step_questions st l) as [-> | ->]; [done|].
  apply Forall_app. split; [done|apply HP].
Qed.

(** Every record of the output was emitted by [save_current_question]. *)
Lemma u_run_Forall (P : QuestionRecord → Prop) :
  (∀ st, Forall P (emitted st)) → ∀ lines, Forall P (run_lines lines).
Proof.
  intros HP lines. unfold V2.run_lines. simpl.
  apply Forall_app. split; [|apply HP].
  apply u_fold_Forall; [done|constructor].
Qed.

(** A header line is skipped. *)
Lemma u_step_header st line :
  V2.is_header line = true → step st line = st.
Proof. intros H. unfold V2.step. by rewrite H. Qed.

(** Before the first boundary, a line that is no boundary changes
    nothing. *)
Lemma u_step_idle line :
  V2.first_boundary V2.q_patterns line = None → step V2.init line = V2.init.
Proof.
  intros H. unfold V2.step. rewrite H. simpl.
  repeat case_match; reflexivity.
Qed.

Lemma u_run_skip_prefix pre rest :
  Forall (λ l, V2.first_boundary V2.q_patterns l = None) pre →
  run_lines (pre ++ rest) = run_lines rest.
Proof.
  intros H. unfold V2.run_lines. rewrite fold_left_app.
  rewrite (fold_left_fixed step V2.init pre); [done|].
  eapply Forall_impl; [exact H|]. intros l Hl. by apply u_step_idle.
Qed.

Lemma u_run_skip_header l1 h l2 :
  V2.is_header h = true → run_lines (l1 ++ h :: l2) = run_lines (l1 ++ l2).
Proof.
  intros H. unfold V2.run_lines. rewrite !fold_left_app. simpl.
  by rewrite u_step_header.
Qed.

End UniversalLoop.

Section PaperLoop.

Variable paper_name : string.

Local Abbreviation p_step := (V1.p_step paper_name).
Local Abbreviation p_emitted := (V1.p_emitted paper_name).
Local Abbreviation p_run := (V1.p_run paper_name).

Lemma p_step_questions st raw :
  V1.p_questions (p_step st raw) = V1.p_questions st
  ∨ V1.p_questions (p_step st raw) = V1.p_questions st ++ p_emitted st.
Proof.
  unfold V1.p_step. repeat case_match; simpl; auto.
Qed.

Lemma p_fold_Forall (P : QuestionRecord → Prop) :
  (∀ st, Forall P (p_emitted st)) →
  ∀ lines st, Forall P (V1.p_questions st) →
              Forall P (V1.p_questions (fold_left p_step lines st)).
Proof.
  intros HP. induction lines as [|l lines IH]; intros st Hst; simpl; [done|].
  apply IH. destruct (p_step_questions st l) as [-> | ->]; [done|].
  apply Forall_app. split; [done|apply HP].
Qed.

Lemma p_run_Forall (P : QuestionRecord → Prop) :
  (∀ st, Forall P (p_emitted st)) → ∀ lines, Forall P (p_run lines).
Proof.
  intros HP lines. unfold V1.p_run.
  apply Forall_app. split; [|apply HP].
  apply p_fold_Forall; [done|constructor].
Qed.

Lemma p_step_header st raw :
  V1.p_is_header (V1.clean_text raw) = true → p_step st raw = st.
Proof. intros H. unfold V1.p_step. rewrite H. by case_match. Qed.

Lemma p_step_idle raw :
  Re.match_ NOFLAGS V1.re_paper_question (V1.clean_text raw) = None →
  p_step V1.p_init raw = V1.p_init.
Proof.
  intros H. unfold V1.p_step. rewrite H. simpl.
  repeat case_match; reflexivity.
Qed.

Lemma p_run_skip_prefix pre rest :
  Forall (λ raw, Re.match_ NOFLAGS V1.re_paper_question (V1.clean_text raw)
                 = None) pre →
  p_run (pre ++ rest) = p_run rest.
Proof.
  intros H. unfold V1.p_run. rewrite fold_left_app.
  rewrite (fold_left_fixed p_step V1.p_init pre); [done|].
  eapply Forall_impl; [exact H|]. intros l Hl. by apply p_step_idle.
Qed.

Lemma p_run_skip_header l1 h l2 :
  V1.p_is_header (V1.clean_text h) = true →
  p_run (l1 ++ h :: l2) = p_run (l1 ++ l2).
Proof.
  intros H. unfold V1.p_run. rewrite !fold_left_app. simpl.
  by rewrite p_step_header.
Qed.

End PaperLoop.

Section BankLoop.

Variable chapter_name : string.

Local Abbreviation b_step := (V1.b_step chapter_name).
Local Abbreviation b_emitted := (V1.b_emitted chapter_name).
Local Abbreviation b_run := (V1.b_run chapter_name).

Lemma b_step_questions st raw :
  V1.b_questions (b_step st raw) = V1.b_questions st
  ∨ V1.b_questions (b_step st raw) = V1.b_questions st ++ b_emitted st.
Proof.
  unfold V1.b_step. repeat case_match; simpl; auto.
Qed.

Lemma b_fold_Forall (P : QuestionRecord → Prop) :
  (∀ st, Forall P (b_emitted st)) →
  ∀ lines st, Forall P (V1.b_questions st) →
              Forall P (V1.b_questions (fold_left b_step lines st)).
Proof.
  intros HP. induction lines as [|l lines IH]; intros st Hst; simpl; [done|].
  apply IH. destruct (b_step_questions st l) as [-> | ->]; [done|].
  apply Forall_app. split; [done|apply HP].
Qed.

Lemma b_run_Forall (P : QuestionRecord → Prop) :
  (∀ st, Forall P (b_emitted st)) → ∀ lines, Forall P (b_run lines).
Proof.
  intros HP lines. unfold V1.b_run.
  apply Forall_app. split; [|apply HP].
  apply b_fold_Forall; [done|constructor].
Qed.

(** Before the first boundary a line can only set the answer. *)
Lemma b_step_idle st raw :
  Re.match_ NOFLAGS V1.re_bank_question (V1.clean_text raw) = None →
  b_alike st V1.b_init → b_alike (b_step st raw) V1.b_init.
Proof.
  intros H Hst. right.
  assert (V1.b_current_question st = None
          ∧ V1.b_questions st = [] ∧ V1.b_current_options st = [])
    as (Hq & Hqs & Hopts).
  { destruct Hst as [-> | (? & _ & ? & ?)]; auto. }
  unfold V1.b_step. rewrite H, Hq. simpl.
  repeat case_match; simpl; auto.
Qed.

(** Alike states stay alike, line by line. *)
Lemma b_step_alike st1 st2 raw :
  b_alike st1 st2 → b_alike (b_step st1 raw) (b_step st2 raw).
Proof.
  intros [-> | (H1 & H2 & Hqs & Hopts)]; [by left|].
  unfold V1.b_step, V1.b_emitted. rewrite H1, H2, Hqs, Hopts. simpl.
  repeat case_match; simpl; auto; try (by left); right; auto.
Qed.

Lemma b_fold_alike lines :
  ∀ st1 st2, b_alike st1 st2 →
             b_alike (fold_left b_step lines st1) (fold_left b_step lines st2).
Proof.
  induction lines as [|l lines IH]; intros st1 st2 H; simpl; [done|].
  by apply IH, b_step_alike.
Qed.

Lemma b_output_alike st1 st2 :
  b_alike st1 st2 → b_output chapter_name st1 = b_output chapter_name st2.
Proof.
  intros [-> | (H1 & H2 & Hqs & Hopts)]; [done|].
  unfold b_output, V1.b_emitted. by rewrite H1, H2, Hqs.
Qed.

Lemma b_fold_idle pre :
  Forall (λ raw, Re.match_ NOFLAGS V1.re_bank_question (V1.clean_text raw)
                 = None) pre →
  b_alike (fold_left b_step pre V1.b_init) V1.b_init.
Proof.
  induction pre as [|raw pre IH] using rev_ind; intros H.
  - by left.
  - apply Forall_app in H as [Hpre Hraw].
    rewrite Forall_singleton in Hraw.
    rewrite fold_left_app. simpl.
    apply b_step_idle; [exact Hraw | apply IH, Hpre].
Qed.

Lemma b_run_skip_prefix pre rest :
  Forall (λ raw, Re.match_ NOFLAGS V1.re_bank_question (V1.clean_text raw)
                 = None) pre →
  b_run (pre ++ rest) = b_run rest.
Proof.
  intros H. unfold V1.b_run. rewrite fold_left_app.
  apply b_output_alike, b_fold_alike, b_fold_idle, H.
Qed.

End BankLoop.

(* ===================================================================== *)
(** * No boundary, no record *)
(* ===================================================================== *)

(** C10. A document none of whose lines matches a question-boundary
    pattern yields no record under the universal, the simple-paper and the
    chapter-bank line-based strategy, whatever option-shaped lines, answer
    lines or prose it holds; more generally, the lines before the first
    boundary leave the output of each strategy as it is without them. *)
Theorem no_boundary_no_records :
  (∀ (doc : Document) (source_name chapter_default : string),
     Forall (λ l, V2.first_boundary V2.q_patterns l = None)
            (V2.universal_lines doc) →
     V2.parse_document_universal doc source_name chapter_default = [])
  ∧ (∀ (doc : Document) (paper_name : string),
       Forall (λ raw, Re.match_ NOFLAGS V1.re_paper_question
                        (V1.clean_text raw) = None)
              (V1.paper_lines doc) →
       V1.parse_question_paper doc paper_name = [])
  ∧ (∀ (doc : Document) (chapter_name : string),
       Forall (λ raw, Re.match_ NOFLAGS V1.re_bank_question
                        (V1.clean_text raw) = None)
              (V1.bank_lines doc) →
       V1.parse_chapter_question_bank doc chapter_name = [])
  ∧ (∀ (source_name chapter_default : string) (pre rest : list string),
       Forall (λ l, V2.first_boundary V2.q_patterns l = None) pre →
       V2.run_lines source_name chapter_default (pre ++ rest)
       = V2.run_lines source_name chapter_default rest)
  ∧ (∀ (paper_name : string) (pre rest : list string),
       Forall (λ raw, Re.match_ NOFLAGS V1.re_paper_question
                        (V1.clean_text raw) = None) pre →
       V1.p_run paper_name (pre ++ rest) = V1.p_run paper_name rest)
  ∧ (∀ (chapter_name : string) (pre rest : list string),
       Forall (λ raw, Re.match_ NOFLAGS V1.re_bank_question
                        (V1.clean_text raw) = None) pre →
       V1.b_run chapter_name (pre ++ rest) = V1.b_run chapter_name rest).
Proof.
  split_and!.
  - intros doc src chap H. unfold V2.parse_document_universal.
    rewrite <- (app_nil_r (V2.universal_lines doc)).
    by rewrite u_run_skip_prefix.
  - intros doc name H. unfold V1.parse_question_paper.
    rewrite <- (app_nil_r (V1.paper_lines doc)).
    by rewrite p_run_skip_prefix.
  - intros doc name H. unfold V1.parse_chapter_question_bank.
    rewrite <- (app_nil_r (V1.bank_lines doc)).
    by rewrite b_run_skip_prefix.
  - intros. by apply u_run_skip_prefix.
  - intros. by apply p_run_skip_prefix.
  - intros. by apply b_run_skip_prefix.
Qed.

Lemma no_boundary_no_records_witness :
  V2.parse_document_universal Samples.unnumbered "Paper" "Mixed" = []
  ∧ V1.parse_question_paper Samples.unnumbered "Paper" = []
  ∧ V1.parse_chapter_question_bank Samples.unnumbered "Functions" = []
  ∧ V2.run_lines "Paper" "Mixed"
      (["(a) stray option"; "Ans: stray answer"]
       ++ ["1. What is a lambda function?"])
    = V2.run_lines "Paper" "Mixed" ["1. What is a lambda function?"].
Proof.
  destruct no_boundary_no_records as (Hu & Hp & Hb & Hpre & _ & _).
  split_and!.
  - apply Hu. vm_compute (V2.universal_lines _).
    all_by_computation.
  - apply Hp. vm_compute (V1.paper_lines _).
    all_by_computation.
  - apply Hb. vm_compute (V1.bank_lines _).
    all_by_computation.
  - apply Hpre.
    all_by_computation.
Defined.

(* ===================================================================== *)
(** * Header lines *)
(* ===================================================================== *)

(** C8, as the code has it. The universal and the simple-paper strategy
    skip a line that matches their own header list before they test it for
    a boundary: the output is the output of the lines without it. The line
    "Section A: General Instructions" matches both lists. (The chapter-bank
    line-based strategy has no header list.) *)
Theorem header_lines_skipped :
  (∀ (source_name chapter_default : string) (l1 l2 : list string)
     (h : string),
     V2.is_header h = true →
     V2.run_lines source_name chapter_default (l1 ++ h :: l2)
     = V2.run_lines source_name chapter_default (l1 ++ l2))
  ∧ (∀ (paper_name : string) (l1 l2 : list string) (h : string),
       V1.p_is_header (V1.clean_text h) = true →
       V1.p_run paper_name (l1 ++ h :: l2) = V1.p_run paper_name (l1 ++ l2))
  ∧ V2.is_header "Section A: General Instructions" = true
  ∧ V1.p_is_header (V1.clean_text "Section A: General Instructions") = true.
Proof.
  split_and!.
  - intros. by apply u_run_skip_header.
  - intros. by apply p_run_skip_header.
  - vm_compute. reflexivity.
  - vm_compute. reflexivity.
Qed.

Lemma header_lines_skipped_witness :
  V2.run_lines "Paper" "Mixed"
    (["1. What is a function in Python?"]
     ++ "Section A: General Instructions" :: ["It returns a value."])
  = V2.run_lines "Paper" "Mixed"
      (["1. What is a function in Python?"] ++ ["It returns a value."])
  ∧ V1.p_run "Paper"
      (["1. What is a function in Python?"]
       ++ "Section A: General Instructions" :: ["It returns a value."])
    = V1.p_run "Paper"
        (["1. What is a function in Python?"] ++ ["It returns a value."]).
Proof.
  destruct header_lines_skipped as (Hu & Hp & _ & _). split.
  - apply Hu. vm_compute. reflexivity.
  - apply Hp. vm_compute. reflexivity.
Defined.

(** The chapter-bank line-based strategy appends the header line to the
    open question. *)
Lemma bank_header_joins_body :
  V1.parse_chapter_question_bank
    ["1. What is a function in Python?"; "Section A: General Instructions"]
    "Functions"
  = [ {| questionText :=
           "What is a function in Python? Section A: General Instructions";
         type := short_answer;
         marks := 2;
         options := None;
         correctAnswer := None;
         chapter := "Functions";
         source := None |} ]
  ∧ V1.parse_chapter_question_bank
      ["1. What is a function in Python?"] "Functions"
    = [ {| questionText := "What is a function in Python?";
           type := short_answer;
           marks := 2;
           options := None;
           correctAnswer := None;
           chapter := "Functions";
           source := None |} ].
Proof. split; vm_compute; reflexivity. Qed.

(* ===================================================================== *)
(** * Options and type of an emitted record *)
(* ===================================================================== *)

(** The classifier answers mcq only on two or more options. *)
Lemma v2_detect_mcq_iff (text : string) (opts : list string) :
  V2.detect_question_type text opts = mcq ↔ (2 ≤ length opts)%nat.
Proof.
  destruct opts as [|a [|b opts]]; unfold V2.detect_question_type; simpl;
    (split; [|try lia; done]); repeat case_match; try discriminate; lia.
Qed.

Lemma v1_detect_mcq_iff (text : string) (opts : list string) :
  V1.detect_question_type text opts = mcq ↔ (2 ≤ length opts)%nat.
Proof.
  destruct opts as [|a [|b opts]]; unfold V1.detect_question_type; simpl;
    (split; [|try lia; done]); repeat case_match; try discriminate; lia.
Qed.

(** A record whose options are [l if l else None] and whose type is the
    classifier's answer on [l] satisfies the options invariant. *)
Lemma options_wf_intro (r : QuestionRecord) (opts : list string) :
  options r = list_or_None opts →
  (type r = mcq ↔ (2 ≤ length opts)%nat) →
  options_wf r.
Proof.
  intros Ho Ht opts' Hopts'. rewrite Ho in Hopts'.
  destruct opts as [|a opts]; simpl in Hopts'; [discriminate|].
  injection Hopts' as <-. split; [simpl; lia|done].
Qed.

Lemma u_emitted_options_wf (source_name chapter_default : string)
  (st : V2.ustate) :
  Forall options_wf (V2.emitted source_name chapter_default st).
Proof.
  unfold V2.emitted. repeat case_match; try constructor; [|constructor].
  eapply options_wf_intro; [reflexivity|]. apply v2_detect_mcq_iff.
Qed.

Lemma p_emitted_options_wf (paper_name : string) (st : V1.pstate) :
  Forall options_wf (V1.p_emitted paper_name st).
Proof.
  unfold V1.p_emitted. repeat case_match; try constructor; [|constructor].
  eapply options_wf_intro; [reflexivity|]. apply v1_detect_mcq_iff.
Qed.

Lemma b_emitted_options_wf (chapter_name : string) (st : V1.bstate) :
  Forall options_wf (V1.b_emitted chapter_name st).
Proof.
  unfold V1.b_emitted. repeat case_match; try constructor; [|constructor].
  eapply options_wf_intro; [reflexivity|]. apply v1_detect_mcq_iff.
Qed.

Lemma block_options_wf (chapter_name q_content : string) :
  Forall options_wf (V2.block chapter_name q_content).
Proof.
  unfold V2.block.
  destruct (Nat.ltb (String.length (V2.clean_text q_content)) 15);
    [constructor|].
  match goal with
  | |- Forall _ (if ?b then _ else _) =>
      destruct b; constructor; [|constructor]
  end.
  eapply options_wf_intro; [reflexivity|]. apply v2_detect_mcq_iff.
Qed.

(** C7, as the code has it. In every record that the four parsers emit, an
    options list that is present has at least one entry, and the type is
    mcq exactly when it has at least two. *)
Theorem emitted_options_invariant :
  ∀ (doc : Document) (label chapter_default : string) (r : QuestionRecord),
    r ∈ V2.parse_document_universal doc label chapter_default
    ∨ r ∈ V2.parse_chapter_bank doc label
    ∨ r ∈ V1.parse_chapter_question_bank doc label
    ∨ r ∈ V1.parse_question_paper doc label →
    options_wf r.
Proof.
  intros doc label chap r [H|[H|[H|H]]]; revert r H; apply Forall_forall.
  - apply u_run_Forall, u_emitted_options_wf.
  - unfold V2.parse_chapter_bank. apply Forall_flat_map, Forall_forall.
    intros qm _. apply block_options_wf.
  - apply b_run_Forall, b_emitted_options_wf.
  - apply p_run_Forall, p_emitted_options_wf.
Qed.

Lemma emitted_options_invariant_witness :
  (1 ≤ length ["A) concept one"; "B) concept two"])%nat
  ∧ (mcq = mcq ↔ (2 ≤ length ["A) concept one"; "B) concept two"])%nat).
Proof.
  apply (emitted_options_invariant
           ["1. What is inheritance? [2]"; "(a) concept one";
            "(b) concept two"]
           "Paper" "Mixed"
           {| questionText := "What is inheritance?";
              type := mcq;
              marks := 2;
              options := Some ["A) concept one"; "B) concept two"];
              correctAnswer := None;
              chapter := "Mixed";
              source := Some "Paper" |}).
  - left. vm_compute. apply list_elem_of_here.
  - reflexivity.
Defined.

(** A question with a single option line is emitted with its options
    present and a type other than mcq. *)
Lemma single_option_record :
  V2.parse_document_universal
    ["1. What is inheritance in Python?"; "(a) concept one"] "Paper" "Mixed"
  = [ {| questionText := "What is inheritance in Python?";
         type := short_answer;
         marks := 2;
         options := Some ["A) concept one"];
         correctAnswer := None;
         chapter := "Mixed";
         source := Some "Paper" |} ].
Proof. vm_compute. reflexivity. Qed.

(* ===================================================================== *)
(** * Minimum length of an emitted question *)
(* ===================================================================== *)

Lemma u_emitted_long (source_name chapter_default : string) (st : V2.ustate) :
  Forall (λ r, 15 < String.length (questionText r))
         (V2.emitted source_name chapter_default st).
Proof.
  unfold V2.emitted. repeat case_match; try constructor; [|constructor].
  simpl. by apply Nat.ltb_lt.
Qed.

Lemma p_emitted_long (paper_name : string) (st : V1.pstate) :
  Forall (λ r, 10 < String.length (questionText r))
         (V1.p_emitted paper_name st).
Proof.
  unfold V1.p_emitted. repeat case_match; try constructor; [|constructor].
  simpl. match goal with H : _ && _ = true |- _ =>
                apply andb_true_iff in H as [_ H] end.
  by apply Nat.ltb_lt.
Qed.

(** C4, as the code has it. On finalize the universal strategy discards a
    candidate whose text, the joined buffer without its trailing marks
    annotations, has at most 15 characters and emits a longer one; the
    simple-paper strategy discards a candidate of at most 10 characters and
    emits a longer one; the chapter-bank line-based strategy emits every
    open candidate, whatever its length. So no record of the universal
    parser has a text of 15 characters or fewer, and no record of the
    simple-paper parser one of 10 or fewer. *)
Theorem length_thresholds :
  (∀ (source_name chapter_default : string) (st : V2.ustate),
     V2.question_buffer st ≠ [] →
     (String.length (V2.body_text (V2.question_buffer st)) <= 15 →
      V2.emitted source_name chapter_default st = [])
     ∧ (15 < String.length (V2.body_text (V2.question_buffer st)) →
        V2.emitted source_name chapter_default st
        = [V2.make_record source_name chapter_default
             (V2.body_text (V2.question_buffer st))
             (V2.current_options st) (V2.current_marks st)]))
  ∧ (∀ (paper_name : string) (st : V1.pstate) (q : string),
       V1.p_current_question st = Some q →
       (String.length q <= 10 → V1.p_emitted paper_name st = [])
       ∧ (10 < String.length q →
          V1.p_emitted paper_name st
          = [V1.p_record paper_name q (V1.p_current_options st)
               (V1.p_current_marks st)]))
  ∧ (∀ (chapter_name : string) (st : V1.bstate) (q : string),
       V1.b_current_question st = Some q → q ≠ "" →
       V1.b_emitted chapter_name st
       = [V1.b_record chapter_name q (V1.b_current_options st)
            (V1.b_current_answer st)])
  ∧ (∀ (doc : Document) (source_name chapter_default : string)
       (r : QuestionRecord),
       r ∈ V2.parse_document_universal doc source_name chapter_default →
       15 < String.length (questionText r))
  ∧ (∀ (doc : Document) (paper_name : string) (r : QuestionRecord),
       r ∈ V1.parse_question_paper doc paper_name →
       10 < String.length (questionText r)).
Proof.
  split_and!.
  - intros src chap st Hbuf. unfold V2.emitted.
    destruct (V2.question_buffer st) as [|l buffer] eqn:E; [done|].
    split; intros Hlen.
    + apply Nat.ltb_ge in Hlen. by rewrite Hlen.
    + apply Nat.ltb_lt in Hlen. by rewrite Hlen.
  - intros name st q Hq. unfold V1.p_emitted. rewrite Hq.
    split; intros Hlen.
    + apply Nat.ltb_ge in Hlen. rewrite Hlen. by rewrite andb_false_r.
    + assert (nonempty q = true) as -> by (destruct q; [simpl in Hlen; lia|done]).
      apply Nat.ltb_lt in Hlen. by rewrite Hlen.
  - intros ch st q Hq Hne. unfold V1.b_emitted. rewrite Hq.
    by destruct q.
  - intros doc src chap. apply Forall_forall.
    apply u_run_Forall, u_emitted_long.
  - intros doc name. apply Forall_forall.
    apply p_run_Forall, p_emitted_long.
Qed.

Lemma length_thresholds_witness :
  V2.emitted "Paper" "Mixed" (Samples.u_open ["Define a set. [2]"]) = []
  ∧ V1.p_emitted "Paper" (Samples.p_open "Define a set.")
    = [V1.p_record "Paper" "Define a set." [] None]
  ∧ V1.b_emitted "Functions" (Samples.b_open "x")
    = [V1.b_record "Functions" "x" [] None]
  ∧ 15 < String.length "What is inheritance?".
Proof.
  destruct length_thresholds as (Hu & Hp & Hb & Hul & _).
  split_and!.
  - apply (Hu "Paper" "Mixed" (Samples.u_open ["Define a set. [2]"])).
    + discriminate.
    + vm_compute. lia.
  - apply (Hp "Paper" (Samples.p_open "Define a set.") "Define a set.").
    + reflexivity.
    + vm_compute. lia.
  - apply (Hb "Functions" (Samples.b_open "x") "x").
    + reflexivity.
    + discriminate.
  - apply (Hul ["1. What is inheritance? [2]"] "Paper" "Mixed"
               {| questionText := "What is inheritance?";
                  type := short_answer;
                  marks := 2;
                  options := None;
                  correctAnswer := None;
                  chapter := "Mixed";
                  source := Some "Paper" |}).
    vm_compute. apply list_elem_of_here.
Defined.

(** The simple-paper parser emits a question of 13 characters, and the
    chapter-bank line-based parser one of a single character. *)
Lemma short_questions_emitted :
  String.length "Define a set." = 13
  ∧ V1.parse_question_paper ["1. Define a set."] "Paper"
    = [ {| questionText := "Define a set.";
           type := short_answer;
           marks := 2;
           options := None;
           correctAnswer := None;
           chapter := "Mixed";
           source := Some "Paper" |} ]
  ∧ V1.parse_chapter_question_bank ["1. x"] "Functions"
    = [ {| questionText := "x";
           type := short_answer;
           marks := 2;
           options := None;
           correctAnswer := None;
           chapter := "Functions";
           source := None |} ].
Proof. split_and!; vm_compute; reflexivity. Qed.

(* ===================================================================== *)
(** * The label form of a marks annotation *)
(* ===================================================================== *)

Lemma first_marks_no_shape (shapes : list regex) (text : string) :
  no_shape shapes text → first_marks shapes text = None.
Proof.
  induction 1 as [|p shapes Hp _ IH]; simpl; [done|]. by rewrite Hp.
Qed.

Lemma first_marks_app_no_shape (shapes more : list regex) (text : string) :
  no_shape shapes text →
  first_marks (shapes ++ more) text = first_marks more text.
Proof.
  induction 1 as [|p shapes Hp _ IH]; simpl; [done|]. by rewrite Hp.
Qed.

(** C9, as the code has it. On a text in which none of the four shared
    shapes is found, the marks extractor of parse_all_docs.py (simple-paper
    and chapter-bank line-based strategies) finds nothing, and the marks
    extractor of parse_all_docs_v2.py, which the universal strategy and the
    structured extractor share, returns the number of the first
    "Marks <n>" label, if there is one. On the line
    "1. Explain inheritance in detail. Marks 5" the simple-paper strategy
    falls back to the default of 2 marks and the universal strategy reads
    5. *)
Theorem marks_label_form :
  (∀ text : string,
     no_shape marks_shapes text →
     V1.extract_marks text = None
     ∧ V2.extract_marks text
       = match Re.search IGNORECASE re_marks_label text with
         | Some m => Some (Py.int (Re.group 1 m))
         | None => None
         end)
  ∧ marks <$> V1.parse_question_paper
                ["1. Explain inheritance in detail. Marks 5"] "Paper"
    = [2%N]
  ∧ marks <$> V2.parse_document_universal
                ["1. Explain inheritance in detail. Marks 5"] "Paper" "Mixed"
    = [5%N].
Proof.
  split_and!.
  - intros text H. split.
    + by apply first_marks_no_shape.
    + unfold V2.extract_marks, V2.patterns.
      rewrite first_marks_app_no_shape by done. simpl. by case_match.
  - vm_compute. reflexivity.
  - vm_compute. reflexivity.
Qed.

Lemma marks_label_form_witness :
  V1.extract_marks "1. Explain inheritance in detail. Marks 5" = None
  ∧ V2.extract_marks "1. Explain inheritance in detail. Marks 5"
    = match Re.search IGNORECASE re_marks_label
              "1. Explain inheritance in detail. Marks 5" with
      | Some m => Some (Py.int (Re.group 1 m))
      | None => None
      end.
Proof.
  destruct marks_label_form as (H & _ & _).
  apply (H "1. Explain inheritance in detail. Marks 5").
  all_by_computation.
Defined.

(** In the universal strategy a line with a "Marks <n>" label and no other
    shape gets the marks of the label. *)
Lemma label_read_by_universal :
  no_shape marks_shapes "1. Explain inheritance in detail. Marks 5"
  ∧ V2.extract_marks "1. Explain inheritance in detail. Marks 5" = Some 5%N
  ∧ V2.parse_document_universal
      ["1. Explain inheritance in detail. Marks 5"] "Paper" "Mixed"
    = [ {| questionText := "Explain inheritance in detail.";
           type := short_answer;
           marks := 5;
           options := None;
           correctAnswer := None;
           chapter := "Mixed";
           source := Some "Paper" |} ].
Proof.
  split_and!.
  - all_by_computation.
  - vm_compute. reflexivity.
  - vm_compute. reflexivity.
Qed.

(* ===================================================================== *)
(** * The normaliser *)
(* ===================================================================== *)

Section Words.

Implicit Types (s t w : string) (cur : list ascii) (ws : list string).

Lemma append_cons (c : ascii) s t : String c s +:+ t = String c (s +:+ t).
Proof. reflexivity. Qed.

Lemma append_nil_r s : s +:+ "" = s.
Proof. induction s as [|c s IH]; [done|by rewrite append_cons, IH]. Qed.

Lemma append_assoc s t w : (s +:+ t) +:+ w = s +:+ t +:+ w.
Proof. induction s as [|c s IH]; [done|by rewrite !append_cons, IH]. Qed.

Lemma nospace_of_list cur :
  Forall (λ c, Py.isspace c = false) cur → nospace (string_of_list_ascii cur).
Proof. induction 1; simpl; auto. Qed.

Lemma nonempty_of_list cur : cur ≠ [] → string_of_list_ascii cur ≠ "".
Proof. by destruct cur. Qed.

Lemma word_of_run c cur :
  Forall (λ c, Py.isspace c = false) (c :: cur) →
  is_word (string_of_list_ascii (rev (c :: cur))).
Proof.
  intros H. split.
  - apply nonempty_of_list. simpl. by destruct (rev cur).
  - apply nospace_of_list, Forall_forall. intros x Hx.
    apply list_elem_of_In, in_rev, list_elem_of_In in Hx.
    revert x Hx. by apply Forall_forall.
Qed.

(** The runs that [split] returns are words. *)
Lemma split_ws_aux_words s :
  ∀ cur, Forall (λ c, Py.isspace c = false) cur →
         Forall is_word (Py.split_ws_aux cur s).
Proof.
  induction s as [|c s IH]; intros cur Hcur; simpl.
  - destruct cur as [|x cur]; [constructor|].
    constructor; [by apply word_of_run|constructor].
  - destruct (Py.isspace c) eqn:Hc.
    + destruct cur as [|x cur]; [by apply IH|].
      constructor; [by apply word_of_run|by apply IH].
    + apply IH. by constructor.
Qed.

Lemma split_ws_words s : Forall is_word (Py.split_ws s).
Proof. apply split_ws_aux_words. constructor. Qed.

(** Reading a text without white space extends the current run. *)
Lemma split_ws_aux_nospace w t cur :
  nospace w →
  Py.split_ws_aux cur (w +:+ t)
  = Py.split_ws_aux (rev (list_ascii_of_string w) ++ cur) t.
Proof.
  revert cur. induction w as [|c w IH]; intros cur Hw; [done|].
  destruct Hw as [Hc Hw]. rewrite append_cons. simpl.
  rewrite Hc, IH by done. by rewrite <- app_assoc.
Qed.

Lemma split_ws_aux_word w :
  is_word w → Py.split_ws_aux [] w = [w].
Proof.
  intros [Hne Hw]. rewrite <- (append_nil_r w) at 1.
  rewrite split_ws_aux_nospace by done. rewrite app_nil_r. simpl.
  destruct (rev (list_ascii_of_string w)) as [|x l] eqn:E.
  - apply (f_equal (@rev ascii)) in E. rewrite rev_involutive in E.
    simpl in E. destruct w; [done|discriminate].
  - rewrite <- E, rev_involutive. by rewrite string_of_list_ascii_of_string.
Qed.

Lemma split_ws_aux_word_space w t :
  is_word w → Py.split_ws_aux [] (w +:+ " " +:+ t) = w :: Py.split_ws_aux [] t.
Proof.
  intros [Hne Hw]. rewrite split_ws_aux_nospace by done.
  rewrite app_nil_r. simpl.
  destruct (rev (list_ascii_of_string w)) as [|x l] eqn:E.
  - apply (f_equal (@rev ascii)) in E. rewrite rev_involutive in E.
    simpl in E. destruct w; [done|discriminate].
  - rewrite <- E, rev_involutive. by rewrite string_of_list_ascii_of_string.
Qed.

(** Splitting the joined words gives the words back. *)
Lemma split_join ws :
  Forall is_word ws → Py.split_ws (Py.join " " ws) = ws.
Proof.
  unfold Py.split_ws. induction 1 as [|w ws Hw Hws IH]; [done|].
  destruct ws as [|w2 ws].
  - by apply split_ws_aux_word.
  - change (Py.join " " (w :: w2 :: ws))
      with (w +:+ " " +:+ Py.join " " (w2 :: ws)).
    rewrite split_ws_aux_word_space by done. by rewrite IH.
Qed.

Lemma lstrip_word_first w t : is_word w → Py.lstrip (w +:+ t) = w +:+ t.
Proof.
  intros [Hne Hw]. destruct w as [|c w]; [done|].
  destruct Hw as [Hc _]. rewrite append_cons. simpl. by rewrite Hc.
Qed.

Lemma rstrip_word w : is_word w → Py.rstrip w = w.
Proof.
  intros [Hne Hw]. induction w as [|c w IH]; [done|].
  destruct Hw as [Hc Hw]. simpl. destruct w as [|c' w].
  - simpl. by rewrite Hc.
  - rewrite IH by done. done.
Qed.

Lemma rstrip_word_last s w : is_word w → Py.rstrip (s +:+ w) = s +:+ w.
Proof.
  intros Hw. induction s as [|c s IH]; [by apply rstrip_word|].
  rewrite append_cons. simpl. rewrite IH. destruct (s +:+ w) eqn:E; [|done].
  destruct Hw as [Hne _]. destruct s; [done|discriminate].
Qed.

(** The joined words end in their last word. *)
Lemma join_last w ws :
  ∃ s w', Py.join " " (w :: ws) = s +:+ w' ∧ w' ∈ w :: ws.
Proof.
  revert w. induction ws as [|w2 ws IH]; intros w.
  - exists "", w. split; [done|apply list_elem_of_here].
  - destruct (IH w2) as (s & w' & E & Hin).
    exists (w +:+ " " +:+ s), w'. split; [|by apply list_elem_of_further].
    change (Py.join " " (w :: w2 :: ws))
      with (w +:+ " " +:+ Py.join " " (w2 :: ws)).
    rewrite E. by rewrite !append_assoc.
Qed.

(** The joined words have no white space at either end. *)
Lemma strip_join ws :
  Forall is_word ws → Py.strip (Py.join " " ws) = Py.join " " ws.
Proof.
  intros H. destruct H as [|w ws Hw Hws]; [done|].
  unfold Py.strip.
  assert (Py.lstrip (Py.join " " (w :: ws)) = Py.join " " (w :: ws)) as ->.
  { destruct ws as [|w2 ws].
    - simpl. rewrite <- (append_nil_r w). by apply lstrip_word_first.
    - by apply lstrip_word_first. }
  destruct (join_last w ws) as (s & w' & -> & Hin).
  apply rstrip_word_last.
  revert w' Hin. apply Forall_forall. by constructor.
Qed.

(** A substitution that finds nothing changes nothing. *)
Lemma sub_no_match (f : flags) (r : regex) (repl s : string) :
  Re.search f r s = None → Re.sub f r repl s = s.
Proof.
  unfold Re.search, Re.sub, Re.finditer. intros H. simpl. by rewrite H.
Qed.

(** The white-space normal form is stable. *)
Lemma normal_form_stable s :
  let t := Py.strip (Py.join " " (Py.split_ws s)) in
  Py.strip (Py.join " " (Py.split_ws t)) = t.
Proof.
  simpl. pose proof (split_ws_words s) as H.
  rewrite (strip_join _ H), (split_join _ H). by apply strip_join.
Qed.

End Words.

(** C6, as the code has it. Normalising a normalised line again returns
    it unchanged whenever no page marker is found in it (a marker can be
    left behind when the removal of one marker brings the parts of another
    together). *)
Theorem clean_text_stable_without_marker :
  (∀ s : string,
     Re.search NOFLAGS re_page_slash (V2.clean_text s) = None →
     Re.search NOFLAGS re_page_of (V2.clean_text s) = None →
     V2.clean_text (V2.clean_text s) = V2.clean_text s)
  ∧ (∀ s : string,
       Re.search NOFLAGS re_page_slash (V1.clean_text s) = None →
       V1.clean_text (V1.clean_text s) = V1.clean_text s).
Proof.
  split.
  - intros s H1 H2. unfold V2.clean_text at 1.
    rewrite (sub_no_match _ _ _ _ H1), (sub_no_match _ _ _ _ H2).
    apply normal_form_stable.
  - intros s H1. unfold V1.clean_text at 1.
    rewrite (sub_no_match _ _ _ _ H1).
    apply normal_form_stable.
Qed.

Lemma clean_text_stable_without_marker_witness :
  V2.clean_text (V2.clean_text "  Q1.   What is   Page 3 of 10 a tuple? ")
  = V2.clean_text "  Q1.   What is   Page 3 of 10 a tuple? "
  ∧ V1.clean_text (V1.clean_text "  Q1.   What is   Page: 3/10 a tuple? ")
    = V1.clean_text "  Q1.   What is   Page: 3/10 a tuple? ".
Proof.
  destruct clean_text_stable_without_marker as (H2 & H1). split.
  - apply H2; vm_compute; reflexivity.
  - apply H1; vm_compute; reflexivity.
Defined.

(** A line on which the normaliser is not idempotent: the first pass
    removes the inner marker and leaves "Page: 3/4", which the second pass
    removes. *)
Lemma clean_text_not_idempotent :
  V2.clean_text "Page:Page: 1/2 3/4" = "Page: 3/4"
  ∧ V2.clean_text (V2.clean_text "Page:Page: 1/2 3/4") = ""
  ∧ V2.clean_text (V2.clean_text "Page:Page: 1/2 3/4")
    ≠ V2.clean_text "Page:Page: 1/2 3/4"
  ∧ V1.clean_text (V1.clean_text "Page:Page: 1/2 3/4")
    ≠ V1.clean_text "Page:Page: 1/2 3/4".
Proof. split_and!; vm_compute; (reflexivity || discriminate). Qed.

(* ===================================================================== *)
(** * Further properties of the parsers *)
(* ===================================================================== *)

(** ** The normaliser and the lines of a document *)

(** Both normalisers return the words of a text joined by single
    spaces. *)
Lemma normal_form_words s :
  ∃ ws, Forall is_word ws
        ∧ Py.strip (Py.join " " (Py.split_ws s)) = Py.join " " ws.
Proof.
  exists (Py.split_ws s). split; [apply split_ws_words|].
  apply strip_join, split_ws_words.
Qed.

(** X1. The result of [clean_text], in both parsers, is a sequence of
    words (non-empty, free of white space) joined by single spaces: it has
    no white space at either end, no run of white space and no white space
    other than the space. *)
Theorem clean_text_normal_form :
  ∀ s : string,
    (∃ ws, Forall is_word ws ∧ V2.clean_text s = Py.join " " ws)
    ∧ (∃ ws, Forall is_word ws ∧ V1.clean_text s = Py.join " " ws).
Proof.
  intros s. split; apply normal_form_words.
Qed.

(** X2. The lines that the universal parser loops over are not empty and
    are in the normal form of [clean_text], whatever the paragraphs of the
    document hold (blank paragraphs, line breaks, page markers). *)
Theorem universal_lines_normal :
  ∀ doc : Document,
    Forall (λ l, l ≠ "" ∧ ∃ ws, Forall is_word ws ∧ l = Py.join " " ws)
           (V2.universal_lines doc).
Proof.
  intros doc. unfold V2.universal_lines.
  apply Forall_forall. intros l Hl.
  apply list_elem_of_filter in Hl as [Hne Hin].
  apply list_elem_of_In, in_map_iff in Hin as (raw & <- & _). split.
  - intros E. by rewrite E in Hne.
  - apply normal_form_words.
Qed.

(** ** Marks and labels of the records *)

Lemma or_default_pos (m : option N) (d : N) :
  (0 < d)%N → (0 < Py.or_default m d)%N.
Proof.
  intros Hd. destruct m as [n|]; simpl; [|done].
  destruct (n =? 0)%N eqn:E; [done|]. apply N.eqb_neq in E. lia.
Qed.

Lemma default_marks_pos (t : QType) : (0 < (if is_mcq t then 1 else 2))%N.
Proof. by destruct (is_mcq t). Qed.

(** The records of the structured extractor satisfy what its blocks
    satisfy. *)
Lemma chapter_bank_Forall (P : QuestionRecord → Prop) (doc : Document)
  (chapter_name : string) :
  (∀ q_content, Forall P (V2.block chapter_name q_content)) →
  Forall P (V2.parse_chapter_bank doc chapter_name).
Proof.
  intros H. unfold V2.parse_chapter_bank.
  apply Forall_flat_map, Forall_forall. intros qm _. apply H.
Qed.

(** A property of the record that a block builds holds of what the block
    emits. *)
Lemma block_Forall (P : QuestionRecord → Prop) (chapter_name : string) :
  (∀ text t m opts answer,
     15 < String.length text →
     P {| questionText := text; type := t;
          marks := Py.or_default m (if is_mcq t then 1 else 2);
          options := list_or_None opts; correctAnswer := answer;
          chapter := chapter_name;
          source := Some ("Chapter Bank - " +:+ chapter_name) |}) →
  ∀ q_content, Forall P (V2.block chapter_name q_content).
Proof.
  intros HP q_content. unfold V2.block.
  destruct (Nat.ltb (String.length (V2.clean_text q_content)) 15);
    [constructor|].
  match goal with
  | |- Forall _ (if ?b then _ else _) =>
      destruct b eqn:E; constructor; [|constructor]
  end.
  apply HP. by apply Nat.ltb_lt.
Qed.

(** X3. Every record that one of the four parsers emits has at least one
    mark: a number read from the text counts only if it is not 0, and the
    default is 1 or 2. *)
Theorem marks_positive :
  ∀ (doc : Document) (label chapter_default : string) (r : QuestionRecord),
    r ∈ V2.parse_document_universal doc label chapter_default
    ∨ r ∈ V2.parse_chapter_bank doc label
    ∨ r ∈ V1.parse_chapter_question_bank doc label
    ∨ r ∈ V1.parse_question_paper doc label →
    (0 < marks r)%N.
Proof.
  intros doc label chap r [H|[H|[H|H]]]; revert r H; apply Forall_forall.
  - apply u_run_Forall. intros st. unfold V2.emitted.
    repeat case_match; try constructor; [|constructor].
    apply or_default_pos, default_marks_pos.
  - apply chapter_bank_Forall, block_Forall. intros.
    apply or_default_pos, default_marks_pos.
  - apply b_run_Forall. intros st. unfold V1.b_emitted.
    repeat case_match; try constructor; [|constructor].
    apply or_default_pos, default_marks_pos.
  - apply p_run_Forall. intros st. unfold V1.p_emitted.
    repeat case_match; try constructor; [|constructor].
    apply or_default_pos, default_marks_pos.
Qed.

Lemma marks_positive_witness :
  (0 < marks {| questionText := "Explain inheritance in detail [0]";
                type := short_answer;
                marks := 2;
                options := None;
                correctAnswer := None;
                chapter := "Mixed";
                source := Some "Paper" |})%N.
Proof.
  apply (marks_positive ["1. Explain inheritance in detail [0]"]
           "Paper" "Mixed").
  right. right. right. vm_compute. apply list_elem_of_here.
Defined.

(** X4. Every record carries the labels of its document: the universal
    parser gives it the chapter and the source it was called with and no
    answer; the simple-paper parser the chapter "Mixed", the name of the
    paper as source and no answer; the chapter-bank line-based parser the
    chapter and no source; the structured extractor the chapter and the
    source "Chapter Bank - " followed by the chapter. *)
Theorem records_carry_labels :
  (∀ (doc : Document) (source_name chapter_default : string) r,
     r ∈ V2.parse_document_universal doc source_name chapter_default →
     chapter r = chapter_default ∧ source r = Some source_name
     ∧ correctAnswer r = None)
  ∧ (∀ (doc : Document) (paper_name : string) r,
       r ∈ V1.parse_question_paper doc paper_name →
       chapter r = "Mixed" ∧ source r = Some paper_name
       ∧ correctAnswer r = None)
  ∧ (∀ (doc : Document) (chapter_name : string) r,
       r ∈ V1.parse_chapter_question_bank doc chapter_name →
       chapter r = chapter_name ∧ source r = None)
  ∧ (∀ (doc : Document) (chapter_name : string) r,
       r ∈ V2.parse_chapter_bank doc chapter_name →
       chapter r = chapter_name
       ∧ source r = Some ("Chapter Bank - " +:+ chapter_name)).
Proof.
  split_and!.
  - intros doc src chap. apply Forall_forall, u_run_Forall.
    intros st. unfold V2.emitted.
    repeat case_match; try constructor; [|constructor]. done.
  - intros doc name. apply Forall_forall, p_run_Forall.
    intros st. unfold V1.p_emitted.
    repeat case_match; try constructor; [|constructor]. done.
  - intros doc ch. apply Forall_forall, b_run_Forall.
    intros st. unfold V1.b_emitted.
    repeat case_match; try constructor; [|constructor]. done.
  - intros doc ch. apply Forall_forall, chapter_bank_Forall, block_Forall.
    done.
Qed.

Lemma records_carry_labels_witness :
  chapter (Samples.record_of "What is inheritance in Python?" "Paper")
  = "Mixed"
  ∧ source (Samples.record_of "What is inheritance in Python?" "Paper")
    = Some "Paper"
  ∧ correctAnswer (Samples.record_of "What is inheritance in Python?" "Paper")
    = None.
Proof.
  destruct records_carry_labels as (Hu & _).
  apply (Hu ["1. What is inheritance in Python?"] "Paper" "Mixed").
  vm_compute. apply list_elem_of_here.
Defined.

(** ** The two marks extractors *)

Lemma first_marks_app_found (shapes more : list regex) (text : string)
  (n : N) :
  first_marks shapes text = Some n →
  first_marks (shapes ++ more) text = Some n.
Proof.
  induction shapes as [|p shapes IH]; simpl; [done|].
  by destruct (Re.search IGNORECASE p text).
Qed.

(** X5. The marks extractor of parse_all_docs_v2.py extends the one of
    parse_all_docs.py: where the older one finds marks the newer one finds
    the same marks, and the two type classifiers then agree on every option
    list. *)
Theorem marks_extractors_agree :
  ∀ (text : string) (n : N),
    V1.extract_marks text = Some n →
    V2.extract_marks text = Some n
    ∧ ∀ options : list string,
        V2.detect_question_type text options
        = V1.detect_question_type text options.
Proof.
  intros text n H.
  assert (V2.extract_marks text = Some n) as H2
    by (by apply first_marks_app_found).
  split; [done|]. intros opts.
  unfold V2.detect_question_type, V1.detect_question_type.
  by rewrite H, H2.
Qed.

Lemma marks_extractors_agree_witness :
  V2.extract_marks "Explain photosynthesis. [5] 3" = Some 5%N
  ∧ ∀ options : list string,
      V2.detect_question_type "Explain photosynthesis. [5] 3" options
      = V1.detect_question_type "Explain photosynthesis. [5] 3" options.
Proof.
  apply (marks_extractors_agree "Explain photosynthesis. [5] 3" 5).
  vm_compute. reflexivity.
Defined.

(** ** Deduplication and [main] *)

Lemma dedup_snoc (pre : list QuestionRecord) (q : QuestionRecord) :
  V2.dedup (pre ++ [q])
  = if bool_decide (V2.q_hash q ∈ V2.q_hash <$> pre)
    then V2.dedup pre else V2.dedup pre ++ [q].
Proof.
  unfold V2.dedup. rewrite dedup_loop_snoc.
  apply (f_equal (λ b : bool, if b then _ else _)).
  apply bool_decide_ext.
  rewrite elem_of_union, elem_of_list_to_set.
  split; [intros [H|H]; [by apply not_elem_of_empty in H|done]|by right].
Qed.

(** A list without two records of one fingerprint is left as it is. *)
Lemma dedup_NoDup (all : list QuestionRecord) :
  NoDup (V2.q_hash <$> all) → V2.dedup all = all.
Proof.
  induction all as [|q pre IH] using rev_ind; [done|].
  rewrite fmap_app, NoDup_app. intros (Hpre & Hq & _).
  rewrite dedup_snoc, bool_decide_eq_false_2, IH; [done|done|].
  intros Hin. apply (Hq _ Hin). apply list_elem_of_here.
Qed.

Lemma dedup_sublist (all : list QuestionRecord) :
  V2.dedup all `sublist_of` all ∧ NoDup (V2.q_hash <$> V2.dedup all).
Proof.
  unfold V2.dedup.
  destruct (dedup_loop_selection ∅ [] all) as (out & -> & Hsub & Hnd & _).
  done.
Qed.

(** X6. Deduplication is idempotent, never lengthens the list, and leaves
    a list without repeated fingerprints as it is. *)
Theorem dedup_idempotent :
  ∀ all : list QuestionRecord,
    V2.dedup (V2.dedup all) = V2.dedup all
    ∧ length (V2.dedup all) <= length all
    ∧ (NoDup (V2.q_hash <$> all) → V2.dedup all = all).
Proof.
  intros all. destruct (dedup_sublist all) as [Hsub Hnd]. split_and!.
  - by apply dedup_NoDup.
  - by apply sublist_length.
  - apply dedup_NoDup.
Qed.

Lemma dedup_idempotent_witness :
  V2.dedup (V2.dedup [Samples.qa; Samples.qb; Samples.qa'])
  = V2.dedup [Samples.qa; Samples.qb; Samples.qa']
  ∧ length (V2.dedup [Samples.qa; Samples.qb; Samples.qa']) <= 3
  ∧ V2.dedup [Samples.qa; Samples.qb] = [Samples.qa; Samples.qb].
Proof.
  destruct (dedup_idempotent [Samples.qa; Samples.qb; Samples.qa'])
    as (Hi & Hl & _).
  destruct (dedup_idempotent [Samples.qa; Samples.qb]) as (_ & _ & Hn).
  split_and!; [exact Hi|exact Hl|].
  apply Hn. apply (bool_decide_unpack _). vm_compute. exact I.
Defined.

(** X7. What [main] returns holds no fingerprint twice and only records
    that one of its documents yields (a chapter bank through the strategy
    selector, a paper through the universal parser with the chapter
    "Mixed"); and the fingerprint of every record that a document yields is
    the fingerprint of a record returned. *)
Theorem main_output :
  ∀ (chapter_files paper_files : list (Document * string)),
    NoDup (V2.q_hash <$> V2.main chapter_files paper_files)
    ∧ (∀ r, r ∈ V2.main chapter_files paper_files →
            (∃ f, f ∈ chapter_files ∧ r ∈ V2.chapter_questions f.1 f.2)
            ∨ (∃ f, f ∈ paper_files
                    ∧ r ∈ V2.parse_document_universal f.1 f.2 "Mixed"))
    ∧ (∀ f r,
         f ∈ chapter_files ∧ r ∈ V2.chapter_questions f.1 f.2
         ∨ f ∈ paper_files ∧ r ∈ V2.parse_document_universal f.1 f.2 "Mixed" →
         ∃ r', r' ∈ V2.main chapter_files paper_files
               ∧ V2.q_hash r' = V2.q_hash r).
Proof.
  intros cf pf. unfold V2.main.
  set (all := flat_map _ cf ++ flat_map _ pf).
  assert (∀ r, r ∈ all ↔
               (∃ f, f ∈ cf ∧ r ∈ V2.chapter_questions f.1 f.2)
               ∨ (∃ f, f ∈ pf
                       ∧ r ∈ V2.parse_document_universal f.1 f.2 "Mixed"))
    as Hall.
  { intros r. unfold all. rewrite elem_of_app, !list_elem_of_In, !in_flat_map.
    split; (intros [(f & Hf & Hr)|(f & Hf & Hr)]; [left|right]; exists f);
      by rewrite ?list_elem_of_In in *. }
  split_and!.
  - apply dedup_sublist.
  - intros r Hr. apply Hall.
    destruct (dedup_sublist all) as [Hsub _].
    eapply elem_of_submseteq; [exact Hr|by apply sublist_submseteq].
  - intros f r Hfr.
    assert (r ∈ all) as Hr.
    { apply Hall. destruct Hfr as [[Hf Hr]|[Hf Hr]]; [left|right]; by exists f. }
    unfold V2.dedup.
    destruct (dedup_loop_selection ∅ [] all) as (out & -> & _ & _ & _ & Hrep).
    destruct (Hrep r Hr) as [Hin|Hex]; [by apply not_elem_of_empty in Hin|].
    done.
Qed.

Lemma main_output_witness :
  ∃ r', r' ∈ V2.main [] [(["1. What is inheritance in Python?"], "Paper A");
                         (["1. what is INHERITANCE in python?"], "Paper B")]
        ∧ V2.q_hash r'
          = V2.q_hash (Samples.record_of "what is INHERITANCE in python?"
                                         "Paper B").
Proof.
  destruct (main_output
              [] [(["1. What is inheritance in Python?"], "Paper A");
                  (["1. what is INHERITANCE in python?"], "Paper B")])
    as (_ & _ & H).
  apply (H (["1. what is INHERITANCE in python?"], "Paper B")).
  right. split.
  - apply list_elem_of_further, list_elem_of_here.
  - vm_compute. apply list_elem_of_here.
Defined.

(** X8. The strategy selector of [main] returns the records of the
    structured extractor when there are five or more of them, and the
    records of the universal parser otherwise; the universal parser reads no
    answers, so a record of a chapter bank has an answer only if the
    structured extractor found five or more records in its document. *)
Theorem selector_keeps_answers :
  ∀ (doc : Document) (chapter : string),
    (5 <= length (V2.parse_chapter_bank doc chapter) →
     V2.chapter_questions doc chapter = V2.parse_chapter_bank doc chapter)
    ∧ (length (V2.parse_chapter_bank doc chapter) < 5 →
       V2.chapter_questions doc chapter
       = V2.parse_document_universal doc ("Chapter - " +:+ chapter) chapter
       ∧ ∀ r, r ∈ V2.chapter_questions doc chapter → correctAnswer r = None).
Proof.
  intros doc ch. unfold V2.chapter_questions. split; intros H.
  - apply Nat.ltb_ge in H. by rewrite H.
  - apply Nat.ltb_lt in H. rewrite H. split; [done|].
    apply Forall_forall, u_run_Forall.
    intros st. unfold V2.emitted.
    repeat case_match; try constructor; [|constructor]. done.
Qed.

Lemma selector_keeps_answers_witness :
  V2.chapter_questions bank_of_five "Functions"
  = V2.parse_chapter_bank bank_of_five "Functions"
  ∧ V2.chapter_questions (firstn 4 bank_of_five) "Functions"
    = V2.parse_document_universal (firstn 4 bank_of_five)
        ("Chapter - " +:+ "Functions") "Functions".
Proof.
  split.
  - apply (selector_keeps_answers bank_of_five "Functions").
    vm_compute. lia.
  - apply (selector_keeps_answers (firstn 4 bank_of_five) "Functions").
    vm_compute. lia.
Defined.

(** The answers of the bank of five questions, and of its first four. *)
Example answers_of_bank_of_five :
  correctAnswer <$> V2.chapter_questions bank_of_five "Functions"
  = [Some "A function defined with no name.";
     Some "A function that calls itself.";
     Some "It gives the result.";
     Some "The region where it is known.";
     Some "A file of Python code."]
  ∧ correctAnswer <$> V2.chapter_questions (firstn 4 bank_of_five) "Functions"
    = [None; None; None; None].
Proof. split; vm_compute; reflexivity. Qed.

(** ** Questions are parsed one by one *)

Lemma count_cons {A : Type} (f : A → bool) (x : A) (l : list A) :
  count f (x :: l) = (if f x then 1 else 0) + count f l.
Proof. unfold count. simpl. by destruct (f x). Qed.

Section UniversalSplit.

Variables source_name chapter_default : string.

Local Abbreviation step := (V2.step source_name chapter_default).
Local Abbreviation emitted := (V2.emitted source_name chapter_default).
Local Abbreviation run_lines := (V2.run_lines source_name chapter_default).

(** The loop does not read the records it has emitted. *)
Lemma u_step_prepend qs st line :
  step (u_prepend qs st) line = u_prepend qs (step st line).
Proof.
  destruct st as [qs0 qn opts mk buf].
  unfold V2.step, u_prepend, V2.save_current_question, V2.emitted.
  cbn [V2.questions V2.current_q_num V2.current_options V2.current_marks
       V2.question_buffer].
  repeat case_match; simplify_eq; simpl; rewrite ?app_assoc; reflexivity.
Qed.

Lemma u_fold_prepend qs lines :
  ∀ st, fold_left step lines (u_prepend qs st)
        = u_prepend qs (fold_left step lines st).
Proof.
  induction lines as [|l lines IH]; intros st; simpl; [done|].
  by rewrite u_step_prepend, IH.
Qed.

(** At a boundary the open question is emitted and the state starts
    afresh. *)
Lemma u_step_boundary st b :
  u_boundary b = true →
  step st b
  = u_prepend (V2.questions st ++ emitted st) (step V2.init b).
Proof.
  unfold u_boundary. intros [Hh Hb]%andb_true_iff.
  apply negb_true_iff in Hh.
  unfold V2.step, u_prepend. rewrite Hh.
  destruct (V2.first_boundary V2.q_patterns b) as [[p m]|]; [|done].
  simpl. by rewrite app_nil_r.
Qed.

Lemma u_run_split l1 b l2 :
  u_boundary b = true →
  run_lines (l1 ++ b :: l2) = run_lines l1 ++ run_lines (b :: l2).
Proof.
  intros Hb. unfold V2.run_lines. rewrite fold_left_app. simpl.
  rewrite (u_step_boundary (fold_left step l1 V2.init) b Hb).
  rewrite u_fold_prepend. simpl. by rewrite app_assoc.
Qed.

Lemma u_emitted_length st : length (emitted st) <= 1.
Proof. unfold V2.emitted. repeat case_match; simpl; lia. Qed.

Lemma u_step_init_questions line : V2.questions (step V2.init line) = [].
Proof.
  by destruct (u_step_questions source_name chapter_default V2.init line)
    as [-> | ->].
Qed.

Lemma u_step_counted st n line :
  u_counted st n →
  u_counted (step st line) ((if u_boundary line then 1 else 0) + n).
Proof.
  intros H. destruct (u_boundary line) eqn:Hb.
  - rewrite (u_step_boundary st line Hb). simpl.
    rewrite u_step_init_questions, app_nil_r, length_app.
    pose proof (u_emitted_length st).
    destruct n as [|n]; simpl in H; [|lia].
    subst st. simpl. lia.
  - simpl. unfold u_boundary in Hb.
    destruct (V2.is_header line) eqn:Hh.
    + by rewrite u_step_header.
    + destruct (V2.first_boundary V2.q_patterns line) as [pm|] eqn:E;
        [discriminate|].
      destruct n as [|n]; cbn [u_counted] in *.
      * subst st. by apply u_step_idle.
      * unfold V2.step. rewrite Hh, E. by repeat case_match.
Qed.

Lemma u_fold_counted lines :
  ∀ st n, u_counted st n →
          u_counted (fold_left step lines st) (count u_boundary lines + n).
Proof.
  induction lines as [|l lines IH]; intros st n H; [done|].
  rewrite count_cons. simpl.
  replace ((if u_boundary l then 1 else 0) + count u_boundary lines + n)
    with (count u_boundary lines + ((if u_boundary l then 1 else 0) + n))
    by lia.
  by apply IH, u_step_counted.
Qed.

Lemma u_run_length lines :
  length (run_lines lines) <= count u_boundary lines.
Proof.
  pose proof (u_fold_counted lines V2.init 0 eq_refl) as H.
  rewrite Nat.add_0_r in H. unfold V2.run_lines. simpl.
  rewrite length_app.
  pose proof (u_emitted_length (fold_left step lines V2.init)).
  destruct (count u_boundary lines) as [|n]; simpl in H; [|lia].
  rewrite H. simpl. lia.
Qed.

End UniversalSplit.

Section PaperSplit.

Variable paper_name : string.

Local Abbreviation p_step := (V1.p_step paper_name).
Local Abbreviation p_emitted := (V1.p_emitted paper_name).
Local Abbreviation p_run := (V1.p_run paper_name).

Lemma p_step_prepend qs st raw :
  p_step (p_prepend qs st) raw = p_prepend qs (p_step st raw).
Proof.
  destruct st as [qs0 cq opts mk io].
  unfold V1.p_step, p_prepend, V1.p_emitted.
  cbn [V1.p_questions V1.p_current_question V1.p_current_options
       V1.p_current_marks V1.p_in_options].
  repeat case_match; simplify_eq; simpl; rewrite ?app_assoc; reflexivity.
Qed.

Lemma p_fold_prepend qs lines :
  ∀ st, fold_left p_step lines (p_prepend qs st)
        = p_prepend qs (fold_left p_step lines st).
Proof.
  induction lines as [|l lines IH]; intros st; simpl; [done|].
  by rewrite p_step_prepend, IH.
Qed.

Lemma p_step_boundary st raw :
  p_boundary raw = true →
  p_step st raw
  = p_prepend (V1.p_questions st ++ p_emitted st) (p_step V1.p_init raw).
Proof.
  unfold p_boundary. intros [[Hne Hh]%andb_true_iff Hb]%andb_true_iff.
  apply negb_true_iff in Hh.
  unfold V1.p_step, p_prepend. rewrite Hne, Hh.
  destruct (Re.match_ NOFLAGS V1.re_paper_question (V1.clean_text raw));
    [|done].
  simpl. by rewrite app_nil_r.
Qed.

Lemma p_run_split l1 b l2 :
  p_boundary b = true →
  p_run (l1 ++ b :: l2) = p_run l1 ++ p_run (b :: l2).
Proof.
  intros Hb. unfold V1.p_run. rewrite fold_left_app. simpl.
  rewrite (p_step_boundary (fold_left p_step l1 V1.p_init) b Hb).
  rewrite p_fold_prepend. simpl. by rewrite app_assoc.
Qed.

Lemma p_emitted_length st : length (p_emitted st) <= 1.
Proof. unfold V1.p_emitted. repeat case_match; simpl; lia. Qed.

Lemma p_step_init_questions raw : V1.p_questions (p_step V1.p_init raw) = [].
Proof.
  by destruct (p_step_questions paper_name V1.p_init raw) as [-> | ->].
Qed.

Lemma p_step_counted st n raw :
  p_counted st n →
  p_counted (p_step st raw) ((if p_boundary raw then 1 else 0) + n).
Proof.
  intros H. destruct (p_boundary raw) eqn:Hb.
  - rewrite (p_step_boundary st raw Hb). simpl.
    rewrite p_step_init_questions, app_nil_r, length_app.
    pose proof (p_emitted_length st).
    destruct n as [|n]; simpl in H; [|lia].
    subst st. simpl. lia.
  - simpl. unfold p_boundary in Hb.
    destruct (nonempty (V1.clean_text raw)) eqn:Hne;
      [|unfold V1.p_step; by rewrite Hne].
    destruct (V1.p_is_header (V1.clean_text raw)) eqn:Hh;
      [by rewrite p_step_header|].
    destruct (Re.match_ NOFLAGS V1.re_paper_question (V1.clean_text raw))
      as [m|] eqn:E; [discriminate|].
    destruct n as [|n]; cbn [p_counted] in *.
    + subst st. by apply p_step_idle.
    + unfold V1.p_step. rewrite Hne, Hh, E. by repeat case_match.
Qed.

Lemma p_fold_counted lines :
  ∀ st n, p_counted st n →
          p_counted (fold_left p_step lines st) (count p_boundary lines + n).
Proof.
  induction lines as [|l lines IH]; intros st n H; [done|].
  rewrite count_cons. simpl.
  replace ((if p_boundary l then 1 else 0) + count p_boundary lines + n)
    with (count p_boundary lines + ((if p_boundary l then 1 else 0) + n))
    by lia.
  by apply IH, p_step_counted.
Qed.

Lemma p_run_length lines : length (p_run lines) <= count p_boundary lines.
Proof.
  pose proof (p_fold_counted lines V1.p_init 0 eq_refl) as H.
  rewrite Nat.add_0_r in H. unfold V1.p_run.
  rewrite length_app.
  pose proof (p_emitted_length (fold_left p_step lines V1.p_init)).
  destruct (count p_boundary lines) as [|n]; simpl in H; [|lia].
  rewrite H. simpl. lia.
Qed.

End PaperSplit.

Section BankSplit.

Variable chapter_name : string.

Local Abbreviation b_step := (V1.b_step chapter_name).
Local Abbreviation b_emitted := (V1.b_emitted chapter_name).
Local Abbreviation b_run := (V1.b_run chapter_name).

Lemma b_step_prepend qs st raw :
  b_step (b_prepend qs st) raw = b_prepend qs (b_step st raw).
Proof.
  destruct st as [qs0 cq opts ans].
  unfold V1.b_step, b_prepend, V1.b_emitted.
  cbn [V1.b_questions V1.b_current_question V1.b_current_options
       V1.b_current_answer].
  repeat case_match; simplify_eq; simpl; rewrite ?app_assoc; reflexivity.
Qed.

Lemma b_fold_prepend qs lines :
  ∀ st, fold_left b_step lines (b_prepend qs st)
        = b_prepend qs (fold_left b_step lines st).
Proof.
  induction lines as [|l lines IH]; intros st; simpl; [done|].
  by rewrite b_step_prepend, IH.
Qed.

Lemma b_step_boundary st raw :
  b_boundary raw = true →
  b_step st raw
  = b_prepend (V1.b_questions st ++ b_emitted st) (b_step V1.b_init raw).
Proof.
  unfold b_boundary. intros [Hne Hb]%andb_true_iff.
  unfold V1.b_step, b_prepend. rewrite Hne.
  destruct (Re.match_ NOFLAGS V1.re_bank_question (V1.clean_text raw));
    [|done].
  simpl. by rewrite app_nil_r.
Qed.

Lemma b_run_split l1 b l2 :
  b_boundary b = true →
  b_run (l1 ++ b :: l2) = b_run l1 ++ b_run (b :: l2).
Proof.
  intros Hb. unfold V1.b_run. rewrite fold_left_app. simpl.
  rewrite (b_step_boundary (fold_left b_step l1 V1.b_init) b Hb).
  rewrite b_fold_prepend. simpl. by rewrite app_assoc.
Qed.

Lemma b_emitted_length st : length (b_emitted st) <= 1.
Proof. unfold V1.b_emitted. repeat case_match; simpl; lia. Qed.

Lemma b_step_init_questions raw : V1.b_questions (b_step V1.b_init raw) = [].
Proof.
  by destruct (b_step_questions chapter_name V1.b_init raw) as [-> | ->].
Qed.

Lemma b_alike_init_emitted st :
  b_alike st V1.b_init → V1.b_questions st = [] ∧ b_emitted st = [].
Proof.
  intros [-> | (Hq & _ & Hqs & _)]; [done|].
  unfold V1.b_emitted. by rewrite Hq.
Qed.

Lemma b_step_counted st n raw :
  b_counted st n →
  b_counted (b_step st raw) ((if b_boundary raw then 1 else 0) + n).
Proof.
  intros H. destruct (b_boundary raw) eqn:Hb.
  - rewrite (b_step_boundary st raw Hb). simpl.
    rewrite b_step_init_questions, app_nil_r, length_app.
    pose proof (b_emitted_length st).
    destruct n as [|n]; simpl in H; [|lia].
    apply b_alike_init_emitted in H as [-> ->]. simpl. lia.
  - simpl. unfold b_boundary in Hb.
    destruct (nonempty (V1.clean_text raw)) eqn:Hne.
    + destruct (Re.match_ NOFLAGS V1.re_bank_question (V1.clean_text raw))
        as [m|] eqn:E; [discriminate|].
      destruct n as [|n]; cbn [b_counted] in *.
      * by apply b_step_idle.
      * unfold V1.b_step. rewrite Hne, E. by repeat case_match.
    + unfold V1.b_step. by rewrite Hne.
Qed.

Lemma b_fold_counted lines :
  ∀ st n, b_counted st n →
          b_counted (fold_left b_step lines st) (count b_boundary lines + n).
Proof.
  induction lines as [|l lines IH]; intros st n H; [done|].
  rewrite count_cons. simpl.
  replace ((if b_boundary l then 1 else 0) + count b_boundary lines + n)
    with (count b_boundary lines + ((if b_boundary l then 1 else 0) + n))
    by lia.
  by apply IH, b_step_counted.
Qed.

Lemma b_run_length lines : length (b_run lines) <= count b_boundary lines.
Proof.
  assert (b_counted V1.b_init 0) as H0 by (by left).
  pose proof (b_fold_counted lines V1.b_init 0 H0) as H.
  rewrite Nat.add_0_r in H. unfold V1.b_run.
  rewrite length_app.
  pose proof (b_emitted_length (fold_left b_step lines V1.b_init)).
  destruct (count b_boundary lines) as [|n]; simpl in H; [|lia].
  apply b_alike_init_emitted in H as [-> ->]. simpl. lia.
Qed.

End BankSplit.

(** X9. Each line-based parser treats the questions of a document one by
    one: the records of a list of lines that is cut before a boundary line
    are the records of the lines before the cut followed by the records of
    the lines from the cut on. *)
Theorem boundaries_split_the_document :
  (∀ (source_name chapter_default : string) (l1 l2 : list string)
     (b : string),
     u_boundary b = true →
     V2.run_lines source_name chapter_default (l1 ++ b :: l2)
     = V2.run_lines source_name chapter_default l1
       ++ V2.run_lines source_name chapter_default (b :: l2))
  ∧ (∀ (paper_name : string) (l1 l2 : list string) (b : string),
       p_boundary b = true →
       V1.p_run paper_name (l1 ++ b :: l2)
       = V1.p_run paper_name l1 ++ V1.p_run paper_name (b :: l2))
  ∧ (∀ (chapter_name : string) (l1 l2 : list string) (b : string),
       b_boundary b = true →
       V1.b_run chapter_name (l1 ++ b :: l2)
       = V1.b_run chapter_name l1 ++ V1.b_run chapter_name (b :: l2)).
Proof.
  split_and!; intros.
  - by apply u_run_split.
  - by apply p_run_split.
  - by apply b_run_split.
Qed.

Lemma boundaries_split_the_document_witness :
  V2.run_lines "Paper" "Mixed"
    (["1. What is inheritance? [2]"; "(a) concept one"; "(b) concept two"]
     ++ "2. Explain polymorphism with an example." :: ["Give the output."])
  = V2.run_lines "Paper" "Mixed"
      ["1. What is inheritance? [2]"; "(a) concept one"; "(b) concept two"]
    ++ V2.run_lines "Paper" "Mixed"
         ("2. Explain polymorphism with an example." :: ["Give the output."]).
Proof.
  destruct boundaries_split_the_document as (Hu & _ & _).
  apply Hu. vm_compute. reflexivity.
Defined.

(** X10. No line-based parser emits more records than the document has
    boundary lines. *)
Theorem at_most_one_record_per_boundary :
  (∀ (doc : Document) (source_name chapter_default : string),
     length (V2.parse_document_universal doc source_name chapter_default)
     <= count u_boundary (V2.universal_lines doc))
  ∧ (∀ (doc : Document) (paper_name : string),
       length (V1.parse_question_paper doc paper_name)
       <= count p_boundary (V1.paper_lines doc))
  ∧ (∀ (doc : Document) (chapter_name : string),
       length (V1.parse_chapter_question_bank doc chapter_name)
       <= count b_boundary (V1.bank_lines doc)).
Proof.
  split_and!; intros.
  - apply u_run_length.
  - apply p_run_length.
  - apply b_run_length.
Qed.

(** ** The marker of an alternative *)

Lemma or_spelling_facts (h : string) :
  h ∈ ["OR"; "or"; "Or"; "oR"] →
  V2.is_header h = false
  ∧ V2.first_boundary V2.q_patterns h = None
  ∧ Re.match_ NOFLAGS V2.option_pattern h = None
  ∧ (∃ m, Re.match_ IGNORECASE re_or_marker h = Some m)
  ∧ V1.clean_text h = h
  ∧ V1.p_is_header h = false
  ∧ Re.match_ NOFLAGS V1.re_paper_question h = None.
Proof.
  intros Hh. repeat (apply elem_of_cons in Hh as [-> | Hh]);
    [| | | |by apply elem_of_nil in Hh];
    (split_and!; [vm_compute; reflexivity
                 |vm_compute; reflexivity
                 |vm_compute; reflexivity
                 |eexists; vm_compute; reflexivity
                 |vm_compute; reflexivity
                 |vm_compute; reflexivity
                 |vm_compute; reflexivity]).
Qed.

Lemma u_step_or (source_name chapter_default : string) st h :
  h ∈ ["OR"; "or"; "Or"; "oR"] →
  V2.step source_name chapter_default st h = st.
Proof.
  intros (Hh & Hb & Ho & (m & Hm) & _)%or_spelling_facts.
  unfold V2.step. by rewrite Hh, Hb, Ho, Hm.
Qed.

Lemma p_step_or (paper_name : string) st h :
  h ∈ ["OR"; "or"; "Or"; "oR"] →
  V1.p_step paper_name st h = st.
Proof.
  intros Hin.
  assert (Re.match_ NOFLAGS re_option_line h = None) as Ho.
  { by apply or_spelling_facts in Hin as (_ & _ & Ho & _). }
  apply or_spelling_facts in Hin as (_ & _ & _ & (m & Hm) & Hc & Hh & Hq).
  unfold V1.p_step. rewrite Hc, Hh, Hq, Ho, Hm.
  by destruct h.
Qed.

(** X11. A line that holds the marker OR alone, in any letter case, is
    dropped by the universal and the simple-paper parser: it neither closes
    the open question nor enters its text or its options, so that the
    records are those of the lines without it. *)
Theorem or_marker_dropped :
  ∀ h : string,
    h ∈ ["OR"; "or"; "Or"; "oR"] →
    (∀ (source_name chapter_default : string) (l1 l2 : list string),
       V2.run_lines source_name chapter_default (l1 ++ h :: l2)
       = V2.run_lines source_name chapter_default (l1 ++ l2))
    ∧ (∀ (paper_name : string) (l1 l2 : list string),
         V1.p_run paper_name (l1 ++ h :: l2)
         = V1.p_run paper_name (l1 ++ l2)).
Proof.
  intros h Hh. split; intros.
  - unfold V2.run_lines. rewrite !fold_left_app. simpl.
    by rewrite u_step_or.
  - unfold V1.p_run. rewrite !fold_left_app. simpl.
    by rewrite p_step_or.
Qed.

Lemma or_marker_dropped_witness :
  V2.run_lines "Paper" "Mixed"
    (["1. Explain the working of a stack."] ++ "OR" :: ["Explain a queue."])
  = V2.run_lines "Paper" "Mixed"
      (["1. Explain the working of a stack."] ++ ["Explain a queue."])
  ∧ V1.p_run "Paper"
      (["1. Explain the working of a stack."] ++ "OR" :: ["Explain a queue."])
    = V1.p_run "Paper"
        (["1. Explain the working of a stack."] ++ ["Explain a queue."]).
Proof.
  destruct (or_marker_dropped "OR") as (Hu & Hp).
  - apply list_elem_of_here.
  - split; [apply Hu|apply Hp].
Defined.

(** Both alternatives end up in one record. *)
Example alternatives_joined :
  questionText <$> V2.run_lines "Paper" "Mixed"
    ["1. Explain the working of a stack."; "OR"; "Explain a queue."]
  = ["Explain the working of a stack. Explain a queue."].
Proof. vm_compute. reflexivity. Qed.

(** ** Documents without digits *)

Section NoDigit.

Implicit Types (s t : string) (cur : list ascii) (ws : list string).

Lemma nodigit_append s t : nodigit s → nodigit t → nodigit (s +:+ t).
Proof.
  intros Hs Ht. induction s as [|c s IH]; [done|].
  destruct Hs as [Hc Hs]. rewrite append_cons. split; auto.
Qed.

Lemma nodigit_drop n s : nodigit s → nodigit (Py.drop n s).
Proof.
  revert s. induction n as [|n IH]; intros [|c s] H; simpl; auto.
  destruct H as [_ H]. by apply IH.
Qed.

Lemma nodigit_of_list cur :
  Forall (λ c, Py.isdigit c = false) cur → nodigit (string_of_list_ascii cur).
Proof. induction 1; simpl; auto. Qed.

Lemma nodigit_of_rev cur :
  Forall (λ c, Py.isdigit c = false) cur →
  nodigit (string_of_list_ascii (rev cur)).
Proof.
  intros H. apply nodigit_of_list, Forall_forall. intros x Hx.
  apply list_elem_of_In, in_rev, list_elem_of_In in Hx.
  revert x Hx. by apply Forall_forall.
Qed.

Lemma nodigit_split_ws_aux s :
  ∀ cur, Forall (λ c, Py.isdigit c = false) cur → nodigit s →
         Forall nodigit (Py.split_ws_aux cur s).
Proof.
  induction s as [|c s IH]; intros cur Hcur Hs; simpl.
  - destruct cur; [constructor|].
    constructor; [by apply nodigit_of_rev|constructor].
  - destruct Hs as [Hc Hs]. destruct (Py.isspace c).
    + destruct cur; [by apply IH|].
      constructor; [by apply nodigit_of_rev|by apply IH].
    + apply IH; [by constructor|done].
Qed.

Lemma nodigit_split_on_aux sep s :
  ∀ cur, Forall (λ c, Py.isdigit c = false) cur → nodigit s →
         Forall nodigit (Py.split_on_aux sep cur s).
Proof.
  induction s as [|c s IH]; intros cur Hcur Hs; simpl.
  - constructor; [by apply nodigit_of_rev|constructor].
  - destruct Hs as [Hc Hs]. destruct (Ascii.eqb c sep).
    + constructor; [by apply nodigit_of_rev|by apply IH].
    + apply IH; [by constructor|done].
Qed.

Lemma nodigit_join sep ws :
  nodigit sep → Forall nodigit ws → nodigit (Py.join sep ws).
Proof.
  intros Hsep. induction 1 as [|w ws Hw Hws IH]; [done|].
  destruct ws as [|w2 ws]; [done|].
  change (Py.join sep (w :: w2 :: ws))
    with (w +:+ sep +:+ Py.join sep (w2 :: ws)).
  by repeat apply nodigit_append.
Qed.

Lemma nodigit_lstrip s : nodigit s → nodigit (Py.lstrip s).
Proof.
  induction s as [|c s IH]; [done|]. intros [Hc Hs]. simpl.
  destruct (Py.isspace c); [by apply IH|done].
Qed.

Lemma nodigit_rstrip s : nodigit s → nodigit (Py.rstrip s).
Proof.
  induction s as [|c s IH]; [done|]. intros [Hc Hs]. simpl.
  specialize (IH Hs). destruct (Py.rstrip s) as [|c' t].
  - by destruct (Py.isspace c).
  - done.
Qed.

Lemma nodigit_strip s : nodigit s → nodigit (Py.strip s).
Proof. intros H. by apply nodigit_rstrip, nodigit_lstrip. Qed.

(** A matcher whose continuation fails everywhere ahead fails. *)
Lemma run_fails_ahead f r k st :
  (∀ n st', ahead n st st' → k st' = None) → run f r k st = None.
Proof.
  intros H. destruct (run f r k st) as [res|] eqn:E; [|done].
  apply run_hands_ahead in E as (n & st' & Hst' & Hk).
  by rewrite (H n st' Hst') in Hk.
Qed.

(** The test [needs_digit] is sound. *)
Lemma needs_digit_sound f r :
  needs_digit r = true →
  ∀ k st, nodigit (rest st) → run f r k st = None.
Proof.
  induction r as [| | | | | | | | |r1 IH1 r2 IH2|r1 IH1 r2 IH2|g r IH|g r IH
                 |r IH]; intros Hr k st Hst; try discriminate; cbn [run].
  - unfold eat. destruct (rest st) as [|x t]; [done|].
    destruct Hst as [Hx _]. by rewrite Hx.
  - simpl in Hr. destruct (needs_digit r1); [by apply IH1|].
    apply run_fails_ahead. intros n st' (_ & Hrest & _).
    apply IH2; [done|]. rewrite Hrest. by apply nodigit_drop.
  - simpl in Hr. apply andb_true_iff in Hr as [H1 H2].
    by rewrite IH1, IH2.
  - by apply IH.
Qed.

Lemma search_from_nodigit f r s :
  needs_digit r = true → nodigit s → ∀ p, search_from f r p s = None.
Proof.
  intros Hr. induction s as [|c s IH]; intros Hs p; simpl.
  - unfold attempt. by rewrite needs_digit_sound.
  - unfold attempt. rewrite needs_digit_sound by done.
    destruct Hs as [_ Hs]. by apply IH.
Qed.

Lemma match_nodigit f r s :
  needs_digit r = true → nodigit s → Re.match_ f r s = None.
Proof.
  intros Hr Hs. unfold Re.match_, attempt. by rewrite needs_digit_sound.
Qed.

Lemma sub_nodigit f r repl s :
  needs_digit r = true → nodigit s → Re.sub f r repl s = s.
Proof.
  intros Hr Hs. apply sub_no_match. by apply search_from_nodigit.
Qed.

Lemma v2_clean_text_nodigit s : nodigit s → nodigit (V2.clean_text s).
Proof.
  intros H. unfold V2.clean_text.
  rewrite (sub_nodigit NOFLAGS re_page_slash " " s) by done.
  rewrite (sub_nodigit NOFLAGS re_page_of " " s) by done.
  apply nodigit_strip, nodigit_join; [done|].
  by apply nodigit_split_ws_aux.
Qed.

Lemma v1_clean_text_nodigit s : nodigit s → nodigit (V1.clean_text s).
Proof.
  intros H. unfold V1.clean_text.
  rewrite (sub_nodigit NOFLAGS re_page_slash "" s) by done.
  apply nodigit_strip, nodigit_join; [done|].
  by apply nodigit_split_ws_aux.
Qed.

Lemma first_boundary_nodigit ps line :
  Forall (λ p, needs_digit p = true) ps → nodigit line →
  V2.first_boundary ps line = None.
Proof.
  induction 1 as [|p ps Hp _ IH]; intros Hl; simpl; [done|].
  rewrite match_nodigit by done. by apply IH.
Qed.

Lemma nodigit_universal_text (doc : Document) :
  Forall nodigit doc →
  ∀ acc, nodigit acc →
         nodigit (fold_left (λ acc para, acc +:+ para +:+ Py.nl_str) doc acc).
Proof.
  induction 1 as [|para doc Hp _ IH]; intros acc Hacc; simpl; [done|].
  apply IH. by repeat apply nodigit_append.
Qed.

End NoDigit.

(** X12. A document in whose paragraphs no decimal digit occurs yields no
    record, under the universal parser, the structured extractor and the
    two line-based parsers of parse_all_docs.py alike: every question
    starts at a number. *)
Theorem no_digit_no_record :
  ∀ (doc : Document) (label chapter_default : string),
    Forall nodigit doc →
    V2.parse_document_universal doc label chapter_default = []
    ∧ V2.parse_chapter_bank doc label = []
    ∧ V1.parse_chapter_question_bank doc label = []
    ∧ V1.parse_question_paper doc label = [].
Proof.
  intros doc label chap Hdoc.
  assert (nodigit (Py.join Py.nl_str doc)) as Hjoin
    by (by apply nodigit_join).
  split_and!.
  - unfold V2.parse_document_universal.
    rewrite <- (app_nil_r (V2.universal_lines doc)).
    rewrite u_run_skip_prefix; [done|].
    unfold V2.universal_lines.
    assert (nodigit (fold_left (λ acc para, acc +:+ para +:+ Py.nl_str)
                               doc "")) as Htext
      by (by apply nodigit_universal_text).
    rewrite (sub_nodigit NOFLAGS re_page_slash) by done.
    rewrite (sub_nodigit NOFLAGS re_page_of) by done.
    apply Forall_forall. intros l Hl.
    apply list_elem_of_filter in Hl as [_ Hin].
    apply list_elem_of_In, in_map_iff in Hin as (raw & <- & Hraw).
    apply first_boundary_nodigit; [all_by_computation|].
    apply v2_clean_text_nodigit.
    apply list_elem_of_In in Hraw. revert raw Hraw. apply Forall_forall.
    by apply nodigit_split_on_aux.
  - unfold V2.parse_chapter_bank, Re.finditer. simpl.
    by rewrite search_from_nodigit.
  - unfold V1.parse_chapter_question_bank.
    rewrite <- (app_nil_r (V1.bank_lines doc)).
    rewrite b_run_skip_prefix; [done|].
    unfold V1.bank_lines. apply Forall_forall. intros raw Hraw.
    apply match_nodigit; [done|]. apply v1_clean_text_nodigit.
    revert raw Hraw. apply Forall_forall.
    by apply nodigit_split_on_aux.
  - unfold V1.parse_question_paper.
    rewrite <- (app_nil_r (V1.paper_lines doc)).
    rewrite p_run_skip_prefix; [done|].
    unfold V1.paper_lines. rewrite sub_nodigit by done.
    apply Forall_forall. intros raw Hraw.
    apply match_nodigit; [done|]. apply v1_clean_text_nodigit.
    revert raw Hraw. apply Forall_forall.
    by apply nodigit_split_on_aux.
Qed.

Lemma no_digit_no_record_witness :
  V2.parse_document_universal Samples.unnumbered "Paper" "Mixed" = []
  ∧ V2.parse_chapter_bank Samples.unnumbered "Paper" = []
  ∧ V1.parse_chapter_question_bank Samples.unnumbered "Paper" = []
  ∧ V1.parse_question_paper Samples.unnumbered "Paper" = [].
Proof.
  apply (no_digit_no_record Samples.unnumbered "Paper" "Mixed").
  repeat (constructor; [vm_compute; intuition reflexivity|]). constructor.
Defined.

(** ** The groups of a match *)

Section Groups.

Implicit Types (st : mstate) (k : mstate → option mstate).

Lemma star_loop_keeps_group body greedy k g :
  (∀ k st res, body k st = Some res →
               ∃ n st', ahead n st st'
                        ∧ lookup_cap g (caps st') = lookup_cap g (caps st)
                        ∧ k st' = Some res) →
  ∀ fuel st res,
    star_loop body greedy k fuel st = Some res →
    ∃ n st', ahead n st st'
             ∧ lookup_cap g (caps st') = lookup_cap g (caps st)
             ∧ k st' = Some res.
Proof.
  intros Hbody. induction fuel as [|fuel IH]; intros st res; simpl.
  - intros H. exists 0, st. split_and!; [apply ahead_refl|done|done].
  - assert (∀ r, body (λ st', if Nat.ltb (pos st) (pos st')
                              then star_loop body greedy k fuel st'
                              else None) st = Some r →
                 ∃ n st', ahead n st st'
                          ∧ lookup_cap g (caps st') = lookup_cap g (caps st)
                          ∧ k st' = Some r) as Hmore.
    { intros r (n & st1 & Hst1 & Hc1 & H)%Hbody.
      destruct (Nat.ltb (pos st) (pos st1)); [|done].
      apply IH in H as (m & st2 & Hst2 & Hc2 & H).
      exists (n + m), st2.
      split_and!; [by eapply ahead_trans|congruence|done]. }
    assert (∀ r, k st = Some r →
                 ∃ n st', ahead n st st'
                          ∧ lookup_cap g (caps st') = lookup_cap g (caps st)
                          ∧ k st' = Some r) as Hleave.
    { intros r H. exists 0, st. split_and!; [apply ahead_refl|done|done]. }
    destruct greedy.
    + destruct (body _ st) as [r|] eqn:E.
      * intros [= <-]. by apply Hmore.
      * apply Hleave.
    + destruct (k st) as [r|] eqn:E.
      * intros [= <-]. by apply Hleave.
      * apply Hmore.
Qed.

Lemma eat_keeps_caps p k st res :
  eat p k st = Some res →
  ∃ st', ahead 1 st st' ∧ caps st' = caps st ∧ k st' = Some res.
Proof.
  unfold eat. destruct (rest st) as [|x t] eqn:E; [done|].
  destruct (p x); [|done]. intros H.
  exists {| pos := S (pos st); rest := t; caps := caps st |}.
  split_and!; [|reflexivity|exact H].
  unfold ahead. simpl. rewrite E. simpl. split_and!; [lia|done|lia].
Qed.

(** A pattern leaves the groups alone that it does not close. *)
Lemma run_keeps_group f r g :
  mentions g r = false →
  ∀ k st res,
    run f r k st = Some res →
    ∃ n st', ahead n st st'
             ∧ lookup_cap g (caps st') = lookup_cap g (caps st)
             ∧ k st' = Some res.
Proof.
  induction r as [| | | | | | | | |r1 IH1 r2 IH2|r1 IH1 r2 IH2|gr r IH|n r IH
                 |r IH]; intros Hg k st res; cbn [run];
    try (intros (st' & Hst' & Hc & H)%eat_keeps_caps;
         exists 1, st'; split_and!; [done|by rewrite Hc|done]).
  - intros H. exists 0, st. split_and!; [apply ahead_refl|done|done].
  - destruct (Nat.eqb (pos st) 0); [|done].
    intros H. exists 0, st. split_and!; [apply ahead_refl|done|done].
  - destruct (at_end (rest st)); [|done].
    intros H. exists 0, st. split_and!; [apply ahead_refl|done|done].
  - simpl in Hg. apply orb_false_iff in Hg as [Hg1 Hg2].
    intros (n1 & st1 & Hst1 & Hc1 & H)%(IH1 Hg1).
    apply (IH2 Hg2) in H as (n2 & st2 & Hst2 & Hc2 & H).
    exists (n1 + n2), st2.
    split_and!; [by eapply ahead_trans|congruence|done].
  - simpl in Hg. apply orb_false_iff in Hg as [Hg1 Hg2].
    destruct (run f r1 k st) as [x|] eqn:E.
    + intros [= <-]. by apply (IH1 Hg1).
    + by apply (IH2 Hg2).
  - simpl in Hg. apply star_loop_keeps_group. by apply IH.
  - simpl in Hg. apply orb_false_iff in Hg as [Hgn Hg].
    intros (m & st1 & Hst1 & Hc1 & H)%(IH Hg).
    exists m, (close_group n st st1). split_and!; [done| |done].
    simpl. by rewrite Hgn.
  - destruct (run f r Some st); [|done].
    intros H. exists 0, st. split_and!; [apply ahead_refl|done|done].
Qed.

(** A group around one character set holds the character it read. *)
Lemma run_group_one f g items k st res :
  run f (Group g (OneOf items)) k st = Some res →
  ∃ x st',
    set_match f items x = true
    ∧ ahead 1 st st'
    ∧ lookup_cap g (caps st') = Some (String x "")
    ∧ k st' = Some res.
Proof.
  cbn [run]. unfold eat. destruct (rest st) as [|x t] eqn:E; [done|].
  destruct (set_match f items x) eqn:Hx; [|done]. intros H.
  exists x, (close_group g st {| pos := S (pos st); rest := t;
                                 caps := caps st |}).
  split_and!; [done| | |exact H].
  - unfold ahead. simpl. rewrite E. simpl. split_and!; [lia|done|lia].
  - simpl. rewrite Nat.eqb_refl, E.
    replace (S (pos st) - pos st) with 1 by lia. by destruct t.
Qed.

(** A group that closes the pattern is in the match. *)
Lemma run_group_last f g r st res :
  mentions g r = false →
  run f (Group (S g) r) Some st = Some res →
  ∃ st', lookup_cap g (caps res) = lookup_cap g (caps st).
Proof.
  intros Hg. cbn [run].
  intros (m & st1 & Hst1 & Hc1 & [= <-])%(run_keeps_group f r g Hg).
  exists st1. simpl.
  destruct (Nat.eqb g (S g)) eqn:E; [|done].
  apply Nat.eqb_eq in E. lia.
Qed.

End Groups.

(** ** The shape of the options *)

Lemma run_seq f r1 r2 k st :
  run f (Seq r1 r2) k st = run f r1 (run f r2 k) st.
Proof. reflexivity. Qed.

Lemma option_letter_cases (x : ascii) :
  set_match NOFLAGS option_letters x = true →
  x ∈ any_letters ∧ Py.upper_char x ∈ upper_letters.
Proof.
  destruct x as [[] [] [] [] [] [] [] []]; vm_compute;
    try discriminate; intros _; split; repeat constructor.
Qed.

(** The first group of an option line is one letter. *)
Lemma option_line_letter (line : string) (m : Match) :
  Re.match_ NOFLAGS re_option_line line = Some m →
  ∃ x, set_match NOFLAGS option_letters x = true
       ∧ Re.group 1 m = String x "".
Proof.
  unfold Re.match_, attempt.
  destruct (run NOFLAGS re_option_line Some _) as [res|] eqn:E; [|done].
  intros [= <-]. unfold Re.group. cbn [m_caps].
  unfold re_option_line in E. cbn [Seqs] in E.
  rewrite run_seq in E.
  apply run_keeps_group with (g := 1) in E as (? & st1 & _ & _ & E);
    [|reflexivity].
  rewrite run_seq in E.
  apply run_keeps_group with (g := 1) in E as (? & st2 & _ & _ & E);
    [|reflexivity].
  rewrite run_seq in E.
  apply run_group_one in E as (c & st3 & Hx & _ & Hc3 & E).
  rewrite run_seq in E.
  apply run_keeps_group with (g := 1) in E as (? & st4 & _ & Hc4 & E);
    [|reflexivity].
  apply run_keeps_group with (g := 1) in E
    as (? & st5 & _ & Hc5 & [= <-]); [|reflexivity].
  exists c. split; [done|]. by rewrite Hc5, Hc4, Hc3.
Qed.

(** The first group of an option inside a block is one letter. *)
Lemma inline_option_letter (p : nat) (s : string) (m : Match) :
  attempt NOFLAGS V2.re_inline_option p s = Some m →
  ∃ x, set_match NOFLAGS option_letters x = true
       ∧ Re.group 1 m = String x "".
Proof.
  unfold attempt.
  destruct (run NOFLAGS V2.re_inline_option Some _) as [res|] eqn:E; [|done].
  intros [= <-]. unfold Re.group. cbn [m_caps].
  unfold V2.re_inline_option in E. cbn [Seqs] in E.
  rewrite run_seq in E.
  apply run_keeps_group with (g := 1) in E as (? & st2 & _ & _ & E);
    [|reflexivity].
  rewrite run_seq in E.
  apply run_group_one in E as (c & st3 & Hx & _ & Hc3 & E).
  rewrite run_seq in E.
  apply run_keeps_group with (g := 1) in E as (? & st4 & _ & Hc4 & E);
    [|reflexivity].
  apply run_keeps_group with (g := 1) in E
    as (? & st5 & _ & Hc5 & [= <-]); [|reflexivity].
  exists c. split; [done|]. by rewrite Hc5, Hc4, Hc3.
Qed.

(** Every match that [search] and [finditer] return was found by an
    attempt at some position. *)
Lemma search_from_attempt f r s :
  ∀ p m, search_from f r p s = Some m →
         ∃ p' s', attempt f r p' s' = Some m.
Proof.
  induction s as [|c s IH]; intros p m; simpl.
  - destruct (attempt f r p "") as [m'|] eqn:E; [|done].
    intros [= <-]. by exists p, "".
  - destruct (attempt f r p (String c s)) as [m'|] eqn:E.
    + intros [= <-]. by exists p, (String c s).
    + apply IH.
Qed.

Lemma finditer_from_attempt f r :
  ∀ fuel p s m, m ∈ finditer_from fuel f r p s →
                ∃ p' s', attempt f r p' s' = Some m.
Proof.
  induction fuel as [|fuel IH]; intros p s m; simpl.
  - intros H. by apply elem_of_nil in H.
  - destruct (search_from f r p s) as [m'|] eqn:E.
    + intros [->|H]%elem_of_cons.
      * by eapply search_from_attempt.
      * destruct (Nat.ltb (m_start m') (m_end m')); [by eapply IH|].
        destruct (Py.drop (m_end m' - p) s);
          [by apply elem_of_nil in H|by eapply IH].
    + intros H. by apply elem_of_nil in H.
Qed.

Lemma upper_one (x : ascii) (t : string) :
  Py.upper (String x "") +:+ ") " +:+ t
  = String (Py.upper_char x) (") " +:+ t).
Proof. reflexivity. Qed.

Lemma lettered_upper_option (line : string) (m : Match) :
  Re.match_ NOFLAGS re_option_line line = Some m →
  lettered upper_letters
    (Py.upper (Re.group 1 m) +:+ ") " +:+ Re.group 2 m).
Proof.
  intros (x & Hx & ->)%option_line_letter.
  apply option_letter_cases in Hx as [_ Hx].
  exists (Py.upper_char x), (Re.group 2 m). by rewrite upper_one.
Qed.

Lemma lettered_any_option (line : string) (m : Match) :
  Re.match_ NOFLAGS re_option_line line = Some m →
  lettered any_letters (Re.group 1 m +:+ ") " +:+ Re.group 2 m).
Proof.
  intros (x & Hx & ->)%option_line_letter.
  apply option_letter_cases in Hx as [Hx _].
  by exists x, (Re.group 2 m).
Qed.

Lemma list_or_None_lettered letters (r : QuestionRecord) (opts : list string) :
  options r = list_or_None opts →
  Forall (lettered letters) opts → options_lettered letters r.
Proof.
  intros Ho H opts' Hopts'. rewrite Ho in Hopts'.
  destruct opts; simpl in Hopts'; [discriminate|]. by injection Hopts' as <-.
Qed.

Lemma u_step_lettered (source_name chapter_default : string) st line :
  Forall (options_lettered upper_letters) (V2.questions st)
  ∧ Forall (lettered upper_letters) (V2.current_options st) →
  Forall (options_lettered upper_letters)
         (V2.questions (V2.step source_name chapter_default st line))
  ∧ Forall (lettered upper_letters)
           (V2.current_options (V2.step source_name chapter_default st line)).
Proof.
  intros [Hq Ho].
  assert (Forall (options_lettered upper_letters)
                 (V2.questions st ++ V2.emitted source_name chapter_default st))
    as Hsave.
  { apply Forall_app. split; [done|]. unfold V2.emitted.
    repeat case_match; try constructor; [|constructor].
    by eapply list_or_None_lettered. }
  unfold V2.step. repeat case_match; simplify_eq; simpl; split; try done.
  apply Forall_app. split; [done|].
  constructor; [|constructor]. by eapply lettered_upper_option.
Qed.

Lemma u_run_lettered (source_name chapter_default : string) lines :
  Forall (options_lettered upper_letters)
         (V2.run_lines source_name chapter_default lines).
Proof.
  unfold V2.run_lines.
  assert (∀ st,
            Forall (options_lettered upper_letters) (V2.questions st)
            ∧ Forall (lettered upper_letters) (V2.current_options st) →
            Forall (options_lettered upper_letters)
              (V2.questions
                 (V2.save_current_question source_name chapter_default
                    (fold_left (V2.step source_name chapter_default)
                               lines st)))) as H.
  { induction lines as [|l lines IH]; intros st Hst; simpl.
    - destruct Hst as [Hq Ho]. apply Forall_app. split; [done|].
      unfold V2.emitted.
      repeat case_match; try constructor; [|constructor].
      by eapply list_or_None_lettered.
    - by apply IH, u_step_lettered. }
  apply H. split; constructor.
Qed.

Lemma p_step_lettered (paper_name : string) st raw :
  Forall (options_lettered upper_letters) (V1.p_questions st)
  ∧ Forall (lettered upper_letters) (V1.p_current_options st) →
  Forall (options_lettered upper_letters)
         (V1.p_questions (V1.p_step paper_name st raw))
  ∧ Forall (lettered upper_letters)
           (V1.p_current_options (V1.p_step paper_name st raw)).
Proof.
  intros [Hq Ho].
  assert (Forall (options_lettered upper_letters)
                 (V1.p_questions st ++ V1.p_emitted paper_name st))
    as Hsave.
  { apply Forall_app. split; [done|]. unfold V1.p_emitted.
    repeat case_match; try constructor; [|constructor].
    by eapply list_or_None_lettered. }
  unfold V1.p_step. repeat case_match; simplify_eq; simpl; split; try done.
  apply Forall_app. split; [done|].
  constructor; [|constructor]. by eapply lettered_upper_option.
Qed.

Lemma p_run_lettered (paper_name : string) lines :
  Forall (options_lettered upper_letters) (V1.p_run paper_name lines).
Proof.
  unfold V1.p_run.
  assert (∀ st,
            Forall (options_lettered upper_letters) (V1.p_questions st)
            ∧ Forall (lettered upper_letters) (V1.p_current_options st) →
            let st' := fold_left (V1.p_step paper_name) lines st in
            Forall (options_lettered upper_letters)
                   (V1.p_questions st' ++ V1.p_emitted paper_name st')) as H.
  { induction lines as [|l lines IH]; intros st Hst; simpl.
    - destruct Hst as [Hq Ho]. apply Forall_app. split; [done|].
      unfold V1.p_emitted.
      repeat case_match; try constructor; [|constructor].
      by eapply list_or_None_lettered.
    - by apply IH, p_step_lettered. }
  apply H. split; constructor.
Qed.

Lemma b_step_lettered (chapter_name : string) st raw :
  Forall (options_lettered any_letters) (V1.b_questions st)
  ∧ Forall (lettered any_letters) (V1.b_current_options st) →
  Forall (options_lettered any_letters)
         (V1.b_questions (V1.b_step chapter_name st raw))
  ∧ Forall (lettered any_letters)
           (V1.b_current_options (V1.b_step chapter_name st raw)).
Proof.
  intros [Hq Ho].
  assert (Forall (options_lettered any_letters)
                 (V1.b_questions st ++ V1.b_emitted chapter_name st))
    as Hsave.
  { apply Forall_app. split; [done|]. unfold V1.b_emitted.
    repeat case_match; try constructor; [|constructor].
    by eapply list_or_None_lettered. }
  unfold V1.b_step. repeat case_match; simplify_eq; simpl; split; try done.
  apply Forall_app. split; [done|].
  constructor; [|constructor]. by eapply lettered_any_option.
Qed.

Lemma b_run_lettered (chapter_name : string) lines :
  Forall (options_lettered any_letters) (V1.b_run chapter_name lines).
Proof.
  unfold V1.b_run.
  assert (∀ st,
            Forall (options_lettered any_letters) (V1.b_questions st)
            ∧ Forall (lettered any_letters) (V1.b_current_options st) →
            let st' := fold_left (V1.b_step chapter_name) lines st in
            Forall (options_lettered any_letters)
                   (V1.b_questions st' ++ V1.b_emitted chapter_name st')) as H.
  { induction lines as [|l lines IH]; intros st Hst; simpl.
    - destruct Hst as [Hq Ho]. apply Forall_app. split; [done|].
      unfold V1.b_emitted.
      repeat case_match; try constructor; [|constructor].
      by eapply list_or_None_lettered.
    - by apply IH, b_step_lettered. }
  apply H. split; constructor.
Qed.

Lemma block_lettered (chapter_name q_content : string) :
  Forall (options_lettered upper_letters) (V2.block chapter_name q_content).
Proof.
  unfold V2.block.
  destruct (Nat.ltb (String.length (V2.clean_text q_content)) 15);
    [constructor|].
  match goal with
  | |- Forall _ (if ?b then _ else _) =>
      destruct b; constructor; [|constructor]
  end.
  eapply list_or_None_lettered; [reflexivity|].
  apply Forall_forall. intros o Ho.
  apply list_elem_of_In, in_map_iff in Ho as (m & <- & Hm).
  apply list_elem_of_In, finditer_from_attempt in Hm as (p & s & Hm).
  apply inline_option_letter in Hm as (c & Hc & ->).
  apply option_letter_cases in Hc as [_ Hc].
  exists (Py.upper_char c), (V2.clean_text (Re.group 2 m)).
  by rewrite upper_one.
Qed.

(** X13. The options of every record have the shape of a letter, a
    closing parenthesis, a space and the text; the letter is one of A, B,
    C, D in the records of the universal parser, the simple-paper parser
    and the structured extractor, and one of a, b, c, d, A, B, C, D in the
    records of the chapter-bank line-based parser, which keeps the case of
    the document. *)
Theorem options_are_lettered :
  ∀ (doc : Document) (label chapter_default : string) (r : QuestionRecord)
    (opts : list string) (o : string),
    options r = Some opts → o ∈ opts →
    (r ∈ V2.parse_document_universal doc label chapter_default
     ∨ r ∈ V1.parse_question_paper doc label
     ∨ r ∈ V2.parse_chapter_bank doc label →
     lettered upper_letters o)
    ∧ (r ∈ V1.parse_chapter_question_bank doc label →
       lettered any_letters o).
Proof.
  intros doc label chap r opts o Hopts Ho. split.
  - intros Hr.
    assert (options_lettered upper_letters r) as H.
    { destruct Hr as [Hr|[Hr|Hr]].
      - exact (proj1 (Forall_forall _ _) (u_run_lettered _ _ _) r Hr).
      - exact (proj1 (Forall_forall _ _) (p_run_lettered _ _) r Hr).
      - exact (proj1 (Forall_forall _ _)
                 (chapter_bank_Forall _ doc label (block_lettered label))
                 r Hr). }
    specialize (H opts Hopts). revert o Ho. by apply Forall_forall.
  - intros Hr.
    assert (options_lettered any_letters r) as H.
    { exact (proj1 (Forall_forall _ _) (b_run_lettered _ _) r Hr). }
    specialize (H opts Hopts). revert o Ho. by apply Forall_forall.
Qed.

Lemma options_are_lettered_witness :
  lettered upper_letters "A) concept one".
Proof.
  destruct (options_are_lettered
              ["1. What is inheritance? [2]"; "(a) concept one";
               "(b) concept two"]
              "Paper" "Mixed"
              {| questionText := "What is inheritance?";
                 type := mcq;
                 marks := 2;
                 options := Some ["A) concept one"; "B) concept two"];
                 correctAnswer := None;
                 chapter := "Mixed";
                 source := Some "Paper" |}
              ["A) concept one"; "B) concept two"] "A) concept one"
              eq_refl (list_elem_of_here _ _)) as [H _].
  apply H. left. vm_compute. apply list_elem_of_here.
Defined.

(** ** One record per numbered line of a chapter bank *)

(** A last group [(.+)] holds at least one character. *)
Lemma group_any_nonempty f g st res :
  run f (Group g (Plus true Any)) Some st = Some res →
  ∃ text, lookup_cap g (caps res) = Some text ∧ nonempty text = true.
Proof.
  cbn [run Plus].
  intros (st1 & (Hp1 & Hr1 & Hn1) & _ & H)%eat_keeps_caps.
  apply star_loop_hands_ahead in H
    as (n & st2 & (Hp2 & _ & _) & [= <-]);
    [|exact (run_hands_ahead f Any)].
  eexists. split; [simpl; by rewrite Nat.eqb_refl|].
  simpl. replace (pos st2 - pos st) with (S n) by lia.
  destruct (rest st) as [|y t]; [simpl in Hn1; lia|done].
Qed.

Lemma bank_question_text (line : string) (m : Match) :
  Re.match_ NOFLAGS V1.re_bank_question line = Some m →
  nonempty (Re.group 2 m) = true.
Proof.
  unfold Re.match_, attempt.
  destruct (run NOFLAGS V1.re_bank_question Some _) as [res|] eqn:E; [|done].
  intros [= <-]. unfold Re.group. cbn [m_caps].
  unfold V1.re_bank_question in E. cbn [Seqs] in E.
  do 5 (rewrite run_seq in E;
        apply run_hands_ahead in E as (? & ? & _ & E)).
  apply group_any_nonempty in E as (text & -> & Htext). done.
Qed.

Section BankExact.

Variable chapter_name : string.

Local Abbreviation b_step := (V1.b_step chapter_name).
Local Abbreviation b_emitted := (V1.b_emitted chapter_name).

Lemma nonempty_append (q t : string) :
  nonempty q = true → nonempty (q +:+ t) = true.
Proof. by destruct q. Qed.

Lemma b_step_exact st n raw :
  b_exact st n →
  b_exact (b_step st raw) ((if b_boundary raw then 1 else 0) + n).
Proof.
  intros H. destruct (b_boundary raw) eqn:Hb.
  - unfold b_boundary in Hb. apply andb_true_iff in Hb as [Hne Hb].
    destruct (Re.match_ NOFLAGS V1.re_bank_question (V1.clean_text raw))
      as [m|] eqn:E; [|done].
    unfold V1.b_step. rewrite Hne, E. simpl.
    split; [|by eapply bank_question_text].
    rewrite length_app. destruct n as [|n]; cbn [b_exact] in H.
    + destruct (b_alike_init_emitted chapter_name st H) as [-> ->]. done.
    + destruct H as [<- Ht]. unfold V1.b_emitted.
      destruct (V1.b_current_question st) as [q|]; [|done].
      simpl in Ht. rewrite Ht. simpl. lia.
  - simpl. destruct n as [|n]; cbn [b_exact] in *.
    + unfold b_boundary in Hb.
      destruct (nonempty (V1.clean_text raw)) eqn:Hne;
        [|unfold V1.b_step; by rewrite Hne].
      destruct (Re.match_ NOFLAGS V1.re_bank_question (V1.clean_text raw))
        as [m|] eqn:E; [discriminate|].
      by apply b_step_idle.
    + destruct H as [Hlen Ht].
      unfold b_boundary in Hb. unfold V1.b_step.
      destruct (nonempty (V1.clean_text raw)) eqn:Hne; [|done].
      destruct (Re.match_ NOFLAGS V1.re_bank_question (V1.clean_text raw))
        as [m|] eqn:E; [discriminate|].
      simpl. rewrite Ht.
      destruct (V1.b_current_question st) as [q|] eqn:Hq; [|done].
      simpl in Ht. rewrite Ht. simpl.
      repeat case_match; simpl; rewrite ?Hq; split; try done.
      by apply nonempty_append.
Qed.

Lemma b_fold_exact lines :
  ∀ st n, b_exact st n →
          b_exact (fold_left b_step lines st) (count b_boundary lines + n).
Proof.
  induction lines as [|l lines IH]; intros st n H; [done|].
  rewrite count_cons. simpl.
  replace ((if b_boundary l then 1 else 0) + count b_boundary lines + n)
    with (count b_boundary lines + ((if b_boundary l then 1 else 0) + n))
    by lia.
  by apply IH, b_step_exact.
Qed.

Lemma b_run_exact lines :
  length (V1.b_run chapter_name lines) = count b_boundary lines.
Proof.
  assert (b_exact V1.b_init 0) as H0 by (by left).
  pose proof (b_fold_exact lines V1.b_init 0 H0) as H.
  rewrite Nat.add_0_r in H. unfold V1.b_run. rewrite length_app.
  destruct (count b_boundary lines) as [|n]; cbn [b_exact] in H.
  - destruct (b_alike_init_emitted chapter_name _ H) as [-> ->]. done.
  - destruct H as [-> Ht]. unfold V1.b_emitted.
    destruct (V1.b_current_question _) as [q|]; [|done].
    simpl in Ht. rewrite Ht. simpl. lia.
Qed.

End BankExact.

(** X14. The chapter-bank line-based parser emits exactly one record for
    every numbered line of the document: it has no minimum length and
    drops no candidate. *)
Theorem bank_one_record_per_numbered_line :
  ∀ (doc : Document) (chapter_name : string),
    length (V1.parse_chapter_question_bank doc chapter_name)
    = count b_boundary (V1.bank_lines doc).
Proof.
  intros. apply b_run_exact.
Qed.

(** ** The text of a record *)

Section Strip.

Implicit Types s : string.

Lemma lstrip_idem s : Py.lstrip (Py.lstrip s) = Py.lstrip s.
Proof.
  induction s as [|c s IH]; [done|]. simpl.
  destruct (Py.isspace c) eqn:Hc; [done|]. simpl. by rewrite Hc.
Qed.

Lemma rstrip_cons (c : ascii) s :
  Py.rstrip (String c s)
  = match Py.rstrip s with
    | EmptyString => if Py.isspace c then EmptyString else String c EmptyString
    | t => String c t
    end.
Proof. reflexivity. Qed.

Lemma rstrip_idem s : Py.rstrip (Py.rstrip s) = Py.rstrip s.
Proof.
  induction s as [|c s IH]; [done|]. rewrite rstrip_cons.
  destruct (Py.rstrip s) as [|c' t] eqn:E.
  - destruct (Py.isspace c) eqn:Hc; [done|]. simpl. by rewrite Hc.
  - by rewrite rstrip_cons, IH.
Qed.

(** Stripping on the right keeps a text stripped on the left. *)
Lemma lstrip_rstrip s :
  Py.lstrip s = s → Py.lstrip (Py.rstrip s) = Py.rstrip s.
Proof.
  destruct s as [|c s]; [done|]. simpl.
  destruct (Py.isspace c) eqn:Hc.
  - intros H. exfalso.
    assert (String.length (Py.lstrip s) <= String.length s) as Hlen.
    { clear. induction s as [|c s IH]; simpl; [lia|].
      destruct (Py.isspace c); simpl; lia. }
    rewrite H in Hlen. simpl in Hlen. lia.
  - intros _. destruct (Py.rstrip s); simpl; by rewrite Hc.
Qed.

Lemma strip_idem s : Py.strip (Py.strip s) = Py.strip s.
Proof.
  unfold Py.strip.
  rewrite (lstrip_rstrip (Py.lstrip s)) by apply lstrip_idem.
  apply rstrip_idem.
Qed.

End Strip.

(** X15. The text of every record of the universal parser, of the
    structured extractor and of the chapter-bank line-based parser has no
    white space at either end: stripping it again changes nothing. *)
Theorem texts_are_stripped :
  ∀ (doc : Document) (label chapter_default : string) (r : QuestionRecord),
    r ∈ V2.parse_document_universal doc label chapter_default
    ∨ r ∈ V2.parse_chapter_bank doc label
    ∨ r ∈ V1.parse_chapter_question_bank doc label →
    Py.strip (questionText r) = questionText r.
Proof.
  intros doc label chap r [H|[H|H]]; revert r H; apply Forall_forall.
  - apply u_run_Forall. intros st. unfold V2.emitted.
    repeat case_match; try constructor; [|constructor].
    apply strip_idem.
  - apply chapter_bank_Forall. intros q_content. unfold V2.block.
    destruct (Nat.ltb (String.length (V2.clean_text q_content)) 15);
      [constructor|].
    match goal with
    | |- Forall _ (if ?b then _ else _) =>
        destruct b; constructor; [|constructor]
    end.
    apply strip_idem.
  - apply b_run_Forall. intros st. unfold V1.b_emitted.
    repeat case_match; try constructor; [|constructor].
    apply strip_idem.
Qed.

Lemma texts_are_stripped_witness :
  Py.strip "What is inheritance?" = "What is inheritance?".
Proof.
  apply (texts_are_stripped
           ["1. What is inheritance? [2]"] "Paper" "Mixed"
           {| questionText := "What is inheritance?";
              type := short_answer;
              marks := 2;
              options := None;
              correctAnswer := None;
              chapter := "Mixed";
              source := Some "Paper" |}).
  left. vm_compute. apply list_elem_of_here.
Defined.

(** X16. The structured extractor emits no record whose text has 15
    characters or fewer, and it emits nothing for a block whose cleaned
    content has fewer than 15 characters. *)
Theorem chapter_bank_minimum_length :
  (∀ (doc : Document) (chapter_name : string) (r : QuestionRecord),
     r ∈ V2.parse_chapter_bank doc chapter_name →
     15 < String.length (questionText r))
  ∧ (∀ (chapter_name q_content : string),
       String.length (V2.clean_text q_content) < 15 →
       V2.block chapter_name q_content = []).
Proof.
  split.
  - intros doc ch. apply Forall_forall, chapter_bank_Forall, block_Forall.
    done.
  - intros ch q H. unfold V2.block. apply Nat.ltb_lt in H. by rewrite H.
Qed.

Lemma chapter_bank_minimum_length_witness :
  15 < String.length "What is a lambda function?"
  ∧ V2.block "Functions" "   Define it.  " = [].
Proof.
  destruct chapter_bank_minimum_length as (Hr & Hb). split.
  - apply (Hr ["1. What is a lambda function? Ans: A function defined."]
              "Functions"
              {| questionText := "What is a lambda function?";
                 type := short_answer;
                 marks := 2;
                 options := None;
                 correctAnswer := Some "A function defined.";
                 chapter := "Functions";
                 source := Some "Chapter Bank - Functions" |}).
    vm_compute. apply list_elem_of_here.
  - apply Hb. vm_compute. lia.
Defined.

(** ** What the fingerprint looks at *)



(** ** The upload loop *)

Section UploadLemmas.

Import Upload.

Lemma range_from_closed fuel : forall i n,
  n - i <= fuel ->
  range_from fuel i n
  = map (fun k => i + k * BATCH_SIZE) (seq 0 ((n - i + BATCH_SIZE - 1) / BATCH_SIZE)).
Proof.
  unfold BATCH_SIZE.
  induction fuel as [|fuel IH]; intros i n H; cbn [range_from].
  - assert (n - i = 0) as -> by lia. reflexivity.
  - destruct (Nat.ltb_spec i n) as [Hlt|Hge].
    + unfold BATCH_SIZE. rewrite IH by lia.
      replace ((n - i + 50 - 1) / 50) with (S ((n - (i + 50) + 50 - 1) / 50)).
      * cbn [seq map]. f_equal; [lia|].
        rewrite <- seq_shift, map_map. apply map_ext. intros k. lia.
      * destruct (Nat.le_gt_cases 50 (n - i)) as [Hb|Hs].
        -- replace (n - i + 50 - 1) with ((n - (i + 50) + 50 - 1) + 1 * 50) by lia.
           rewrite Nat.div_add by lia. lia.
        -- replace (n - (i + 50) + 50 - 1) with 49 by lia.
           replace (n - i + 50 - 1) with ((n - i - 1) + 1 * 50) by lia.
           rewrite Nat.div_add by lia.
           rewrite !Nat.div_small by lia. reflexivity.
    + assert (n - i = 0) as -> by lia. reflexivity.
Qed.

Lemma starts_closed n :
  starts n = map (fun k => k * BATCH_SIZE) (seq 0 (total_batches n)).
Proof.
  unfold starts, total_batches. rewrite range_from_closed by lia.
  rewrite Nat.sub_0_r. reflexivity.
Qed.

Lemma range_from_below fuel : forall i n,
  Forall (fun j => j < n) (range_from fuel i n).
Proof.
  induction fuel as [|fuel IH]; intros i n; simpl; [constructor|].
  destruct (Nat.ltb_spec i n); constructor; [done|apply IH].
Qed.

Lemma range_from_concat {A} (l : list A) fuel : forall i,
  length l - i <= fuel ->
  concat (map (batch_at l) (range_from fuel i (length l))) = skipn i l.
Proof.
  induction fuel as [|fuel IH]; intros i H; simpl.
  - symmetry. apply skipn_all2. lia.
  - destruct (Nat.ltb_spec i (length l)) as [Hlt|Hge].
    + cbn [map concat]. rewrite IH by (unfold BATCH_SIZE; lia).
      unfold batch_at.
      replace (skipn (i + BATCH_SIZE) l) with (skipn BATCH_SIZE (skipn i l))
        by (rewrite skipn_skipn; f_equal; lia).
      apply firstn_skipn.
    + symmetry. apply skipn_all2. lia.
Qed.

Lemma batches_concat {A} (l : list A) : concat (batches l) = l.
Proof. unfold batches, starts. by rewrite range_from_concat by lia. Qed.

Lemma batches_sizes {A} (l : list A) :
  Forall (fun b => 1 <= length b <= BATCH_SIZE) (batches l).
Proof.
  unfold batches, starts. apply Forall_map.
  eapply Forall_impl; [apply range_from_below|].
  intros i Hi. simpl in Hi |- *. unfold batch_at.
  rewrite length_firstn, length_skipn. unfold BATCH_SIZE. lia.
Qed.

Lemma batches_length {A} (l : list A) :
  length (batches l) = total_batches (length l).
Proof.
  unfold batches. rewrite starts_closed, !length_map, length_seq. reflexivity.
Qed.

Lemma batch_numbered_start {A} (l : list A) k :
  k < total_batches (length l) ->
  batch_numbered l (k * BATCH_SIZE / BATCH_SIZE + 1) = batch_at l (k * BATCH_SIZE).
Proof.
  intros Hk. unfold batch_numbered, batches.
  rewrite Nat.div_mul by (unfold BATCH_SIZE; lia).
  replace (k + 1 - 1) with k by lia.
  rewrite starts_closed, map_map.
  rewrite nth_lookup, list_lookup_fmap, lookup_seq_lt by done.
  reflexivity.
Qed.

Lemma questions_in_snoc {A} (l : list A) fs k :
  questions_in l (fs ++ [k])
  = questions_in l fs + length (batch_numbered l k).
Proof.
  unfold questions_in. rewrite map_app, list_sum_app. simpl. lia.
Qed.

Lemma sorted_snoc (fs : list nat) (k : nat) :
  Forall (fun j => j < k) fs -> StronglySorted lt fs ->
  StronglySorted lt (fs ++ [k]).
Proof.
  intros Hb Hs. induction Hs as [|a fs Hs IH Ha]; simpl.
  - repeat constructor.
  - inversion Hb; subst. constructor; [by apply IH|].
    apply Forall_app. split; [done|]. by constructor.
Qed.

Section Account.

Context {A : Type}.
Variable upload_batch : nat -> list A -> outcome.
Variable questions : list A.
Hypothesis Hhonest : honest upload_batch.

(** The state of the loop after the first [j] batches. *)
Lemma upload_prefix j :
  j <= total_batches (length questions) ->
  let t := fold_left (upload_step upload_batch questions)
             (map (fun k => k * BATCH_SIZE) (seq 0 j))
             {| total_uploaded := 0%Z; failed_batches := [] |} in
  (total_uploaded t + Z.of_nat (questions_in questions (failed_batches t)))%Z
  = Z.of_nat (list_sum (map (fun k => length (batch_at questions (k * BATCH_SIZE)))
                            (seq 0 j)))
  /\ Forall (fun k => 1 <= k <= j) (failed_batches t)
  /\ StronglySorted lt (failed_batches t).
Proof.
  induction j as [|j IH]; intros Hj.
  - simpl. repeat split; constructor.
  - destruct IH as (Hsum & Hran & Hsort); [lia|].
    rewrite seq_S, !map_app, fold_left_app, list_sum_app. simpl.
    set (t := fold_left _ _ _) in *.
    clearbody t. unfold upload_step. cbv zeta.
    pose proof (batch_numbered_start questions j ltac:(lia)) as Hnum.
    destruct (upload_batch _ _) as [[c|]|] eqn:E; cbn [total_uploaded failed_batches].
    + apply Hhonest in E as ->. split_and!.
      * rewrite Nat.add_0_r, Nat2Z.inj_add, <- Hsum. ring.
      * eapply Forall_impl; [exact Hran|]. simpl. lia.
      * done.
    + split_and!.
      * rewrite Nat.add_0_r, Nat2Z.inj_add, <- Hsum. ring.
      * eapply Forall_impl; [exact Hran|]. simpl. lia.
      * done.
    + split_and!.
      * rewrite questions_in_snoc, Hnum, Nat.add_0_r, !Nat2Z.inj_add, <- Hsum.
        ring.
      * apply Forall_app. split.
        -- eapply Forall_impl; [exact Hran|]. simpl. lia.
        -- constructor; [|constructor].
           rewrite Nat.div_mul by (unfold BATCH_SIZE; lia). lia.
      * apply sorted_snoc; [|done].
        rewrite Nat.div_mul by (unfold BATCH_SIZE; lia).
        eapply Forall_impl; [exact Hran|]. simpl. lia.
Qed.

End Account.

End UploadLemmas.

(** X18. The upload loop cuts the list of questions into batches that,
    joined in order, give the list back: no question is left out, sent
    twice or moved.  Every batch holds between 1 and 50 questions, and
    there are as many batches as the loop announces,
    (len + 50 - 1) // 50; an empty list gives no batch. *)
Theorem batches_partition {A : Type} (questions : list A) :
  concat (Upload.batches questions) = questions
  ∧ Forall (fun b => 1 <= length b <= Upload.BATCH_SIZE)
           (Upload.batches questions)
  ∧ length (Upload.batches questions)
    = Upload.total_batches (length questions).
Proof.
  split_and!.
  - apply batches_concat.
  - apply batches_sizes.
  - apply batches_length.
Qed.

(** X19. When the server's counts are the sizes of the batches it was
    sent, the loop accounts for every question: total_uploaded plus the
    sizes of the batches listed in failed_batches is the number of
    questions.  The failed batches are listed by their number, between 1
    and the number of batches, in increasing order and so once each. *)
Theorem every_question_accounted_for {A : Type}
    (upload_batch : nat -> list A -> Upload.outcome) (questions : list A) :
  honest upload_batch →
  (Upload.total_uploaded (Upload.upload_all upload_batch questions)
   + Z.of_nat (questions_in questions
        (Upload.failed_batches (Upload.upload_all upload_batch questions))))%Z
  = Z.of_nat (length questions)
  ∧ Forall (fun k => 1 <= k <= Upload.total_batches (length questions))
       (Upload.failed_batches (Upload.upload_all upload_batch questions))
  ∧ StronglySorted lt
       (Upload.failed_batches (Upload.upload_all upload_batch questions)).
Proof.
  intros H. unfold Upload.upload_all. rewrite starts_closed.
  destruct (upload_prefix upload_batch questions H
              (Upload.total_batches (length questions)) ltac:(lia))
    as (Hsum & Hran & Hsort).
  split_and!; [|done|done].
  rewrite Hsum. f_equal.
  transitivity (length (concat (Upload.batches questions)));
    [|by rewrite batches_concat].
  rewrite length_concat. unfold Upload.batches.
  rewrite starts_closed, !map_map. reflexivity.
Qed.

Lemma every_question_accounted_for_witness :
  (Upload.total_uploaded
     (Upload.upload_all
        (fun k _ => if Nat.eqb k 2 then Upload.NotUploaded
                    else Upload.Uploaded None) (seq 0 120))
   + Z.of_nat (questions_in (seq 0 120)
        (Upload.failed_batches
           (Upload.upload_all
              (fun k _ => if Nat.eqb k 2 then Upload.NotUploaded
                          else Upload.Uploaded None) (seq 0 120)))))%Z
  = Z.of_nat (length (seq 0 120))
  ∧ Upload.failed_batches
      (Upload.upload_all
         (fun k _ => if Nat.eqb k 2 then Upload.NotUploaded
                     else Upload.Uploaded None) (seq 0 120)) = [2].
Proof.
  split; [|vm_compute; reflexivity].
  apply (every_question_accounted_for
           (fun k _ => if Nat.eqb k 2 then Upload.NotUploaded
                       else Upload.Uploaded None) (seq 0 120)).
  intros k b c. destruct (Nat.eqb k 2); discriminate.
Defined.
